(** * perma-capture: test harness and account views

    A shallow embedding of [web/conftest.py] (query-count assertion,
    session-aware test client, outbound HTTP mock) and of
    [web/main/views.py] (sign-up, password reset, token reset, account
    edit), with the properties the specification states about them. *)

From Stdlib Require Import ZArith Ascii String List Bool Lia.
From stdpp Require Import base option list strings pretty gmap.

Local Open Scope Z_scope.
Local Open Scope string_scope.

(** ** Python values shared by the modules below *)

Module Py.

(** An exception that escapes a function: only the class name matters. *)
Inductive exn : Type :=
| Exn (class_name : string).

(** Code that may raise: the exception, or the value returned. The bind
    of this monad passes an exception on. *)
#[global] Instance exn_bind : MBind (sum exn) :=
  fun A B f x => match x with inl e => inl e | inr a => f a end.

(** [str.lower()] on the ASCII range. *)
Definition lower_char (c : ascii) : ascii :=
  let n := nat_of_ascii c in
  if (65 <=? n)%nat && (n <=? 90)%nat then ascii_of_nat (n + 32) else c.

Fixpoint lower (s : string) : string :=
  match s with
  | EmptyString => EmptyString
  | String c r => String (lower_char c) (lower r)
  end.

(** [s.split(" ", 1)[0]]: the text before the first space, the whole
    string when it has none. *)
Fixpoint split_space_head (s : string) : string :=
  match s with
  | EmptyString => EmptyString
  | String c r =>
      if Ascii.eqb c " "%char then EmptyString
      else String c (split_space_head r)
  end.

(** A [dict] with [str] keys and [int] values, in insertion order. *)
Definition dict : Type := list (string * Z).

Fixpoint dict_get (k : string) (d : dict) : option Z :=
  match d with
  | [] => None
  | (k', v) :: r => if String.eqb k k' then Some v else dict_get k r
  end.

Definition keys (d : dict) : list string := map fst d.

(** [d[k] += 1] on a [defaultdict(int)]: a missing key is created at the
    end with [0 + 1]. *)
Fixpoint incr (k : string) (d : dict) : dict :=
  match d with
  | [] => [(k, 1)]
  | (k', v) :: r =>
      if String.eqb k k' then (k', v + 1) :: r else (k', v) :: incr k r
  end.

(** [a == b] on dicts: same length, and every item of [a] is in [b]. *)
Definition dict_eqb (a b : dict) : bool :=
  (length a =? length b)%nat
  && forallb (fun kv => match dict_get (fst kv) b with
                        | Some v => Z.eqb v (snd kv)
                        | None => false
                        end) a.

End Py.

(** ** conftest.py: the query-count assertion *)

Module QueryCount.
Import Py.

(** A frame of [inspect.stack()]; [code_context] is [None] when the
    source of the frame is not available. *)
Record FrameInfo : Type := {
  filename : string;
  lineno : Z;
  code_context : option (list string)
}.

(** An entry of the connection's query log after [capture_stack]. *)
Record Query : Type := {
  sql : string;
  stack : list FrameInfo;
  userland_stack_frame : option FrameInfo
}.

(** What the [with] statement ends in. *)
Inductive outcome : Type :=
| Passed
| Failed (msg : string)
| Raised (e : exn).

(** The body of a [with assert_num_queries(...)] block, seen from the
    connection: the statements it issues, and the exception it ends in,
    if any. *)
Record Block : Type := {
  issued : list Query;
  raises : option exn
}.

Definition nl : string := String (ascii_of_nat 10) EmptyString.

Definition startswith (s p : string) : bool := String.prefix p s.

(** [q['sql'].split(" ", 1)[0].lower()] *)
Definition query_type (q : Query) : string := lower (split_space_head (sql q)).

Definition ignored_types : list string := ["savepoint"; "release"; "set"; "show"].

Definition is_ignored (t : string) : bool :=
  existsb (String.eqb t) ignored_types.

(** One round of the loop over [context.captured_queries]. *)
Definition count_step (query_counts : dict) (q : Query) : dict :=
  let query_type := query_type q in
  if negb (is_ignored query_type) then incr query_type query_counts
  else query_counts.

(** The loop, from the empty [defaultdict(int)]. *)
Definition count_queries (captured : list Query) : dict :=
  fold_left count_step captured [].

(** Django keeps the query log of a connection in a
    [deque(maxlen=9000)]: an entry logged into a full log pushes the
    oldest one out. *)
Definition queries_limit : nat := Z.to_nat 9000.

(** [queries_log.append(q)] *)
Definition log_append (queries_log : list Query) (q : Query) : list Query :=
  let log := (queries_log ++ [q])%list in
  drop (length log - queries_limit) log.

(** The log after the statements a block issues. *)
Definition log_extend (queries_log issued : list Query) : list Query :=
  fold_left log_append issued queries_log.

(** [context.captured_queries]:
    [connection.queries[initial_queries:]]. *)
Definition captured_queries (initial_queries : nat) (queries_log : list Query)
  : list Query :=
  drop initial_queries queries_log.

Section Assertion.

(** Library functions the assertion calls. *)
Variable python_lib_path : string.      (* get_python_lib() *)
Variable repr_dict : dict -> string.    (* "%s" % a_dict *)
Variable str_int : Z -> string.         (* "%s" % an_int *)
Variable rstrip : string -> string.     (* str.rstrip() *)
Variable sub_literals : string -> string.
                     (* re.sub(r'\'.*?\'', "'<str>'", s, flags=re.DOTALL) *)

Definition truthy_context (f : FrameInfo) : bool :=
  match code_context f with
  | Some (_ :: _) => true
  | _ => false
  end.

(** [TracingDebugWrapper.get_userland_stack_frame] *)
Definition get_userland_stack_frame (stk : list FrameInfo) : option FrameInfo :=
  List.find
    (fun f => truthy_context f && negb (startswith (filename f) python_lib_path))
    (drop 2 stk).

(** [TracingDebugWrapper.capture_stack] on the entry just logged for
    [text]. *)
Definition capture_stack (stk : list FrameInfo) (text : string) : Query :=
  {| sql := text;
     stack := stk;
     userland_stack_frame := get_userland_stack_frame stk |}.

(** ["%s:%s:\n%s\n" % (filename, lineno, code_context[0].rstrip())] *)
Definition frame_text (f : FrameInfo) : exn + string :=
  match code_context f with
  | None => inl (Exn "TypeError")
  | Some [] => inl (Exn "IndexError")
  | Some (line :: _) =>
      inr (filename f ++ ":" ++ str_int (lineno f) ++ ":" ++ nl
           ++ rstrip line ++ nl)
  end.

Fixpoint frames_text (fs : list FrameInfo) (msg : string) : exn + string :=
  match fs with
  | [] => inr msg
  | f :: r =>
      match frame_text f with
      | inl e => inl e
      | inr t => frames_text r (msg ++ t)
      end
  end.

Definition stack_frames (verbose : Z) (q : Query) : list FrameInfo :=
  if verbose >? 1 then stack q
  else match userland_stack_frame q with
       | Some f => [f]
       | None => []
       end.

(** The [for q in context.captured_queries] loop of the verbose
    message. *)
Fixpoint queries_text (verbose : Z) (qs : list Query) (msg : string)
  : exn + string :=
  match qs with
  | [] => inr msg
  | q :: r =>
      match frames_text (stack_frames verbose q) msg with
      | inl e => inl e
      | inr msg' => queries_text verbose r (msg' ++ sub_literals (sql q) ++ nl ++ nl)
      end
  end.

Definition headline (expected_counts query_counts : dict) : string :=
  "Unexpected queries: expected " ++ repr_dict expected_counts
  ++ ", got " ++ repr_dict query_counts.

(** The statements of [_assert_num_queries] after its [yield]. *)
Definition compare_counts (verbose : Z) (expected_counts : dict)
    (captured : list Query) : outcome :=
  let query_counts := count_queries captured in
  if negb (dict_eqb expected_counts query_counts) then
    let msg := headline expected_counts query_counts in
    if verbose >? 0 then
      match queries_text verbose captured
              (msg ++ nl ++ nl ++ "Queries:" ++ nl ++ "========" ++ nl ++ nl) with
      | inl e => Raised e
      | inr msg' => Failed msg'
      end
    else
      Failed (msg ++ " (add -v option to show queries, or -v -v to show queries with full stack trace)")
  else Passed.

(** [_assert_num_queries]: [CaptureQueriesContext] remembers the length
    of the log on entry, the block runs at the [yield], and the
    statements after the [yield] run only when the block returns. *)
Definition _assert_num_queries (verbose : Z) (expected_counts : dict)
    (block : Block) (queries_log : list Query) : outcome * list Query :=
  let initial_queries := length queries_log in
  let queries_log' := log_extend queries_log (issued block) in
  match raises block with
  | Some e => (Raised e, queries_log')
  | None =>
      (compare_counts verbose expected_counts
         (captured_queries initial_queries queries_log'),
       queries_log')
  end.

End Assertion.

(** Stand-ins for the library functions, for examples: a dict is shown
    by its keys. *)
Definition example_repr_dict (d : dict) : string := String.concat ", " (keys d).

Definition example_str_int (n : Z) : string := "0".

(** A log entry with no stack recorded, for examples. *)
Definition plain (text : string) : Query :=
  {| sql := text; stack := []; userland_stack_frame := None |}.

(** The frames the message prints for [q] have a line of source. *)
Definition printable (verbose : Z) (q : Query) : Prop :=
  Forall (fun f => truthy_context f = true) (stack_frames verbose q).

(** No character of [s] is a space. *)
Fixpoint all_chars_not_space (s : string) : bool :=
  match s with
  | EmptyString => true
  | String c r => negb (Ascii.eqb c " "%char) && all_chars_not_space r
  end.

(** The histogram the specification speaks of: how many captured
    statements have type [t], for the types that are counted. *)
Definition occurrences (t : string) (captured : list Query) : nat :=
  length (filter (fun q => query_type q = t) captured).

Definition histogram (captured : list Query) (t : string) : option Z :=
  if is_ignored t then None
  else match occurrences t captured with
       | O => None
       | S n => Some (Z.of_nat (S n))
       end.

End QueryCount.

(** ** conftest.py: the session-aware test client *)

Module UserClient.
Import Py.

(** [http.cookies.Morsel]: one cookie, its value and its attributes. *)
Record Morsel : Type := {
  value : string;
  attributes : list (string * string)
}.

(** A [Morsel] is a Python object: the jar and local variables hold
    references to it, and assignment through one reference is seen
    through the others. *)
Abbreviation ref := nat.

(** [Client.cookies] is a [SimpleCookie], a dict from cookie names to
    [Morsel] objects. *)
Record Client : Type := {
  cookies : gmap string ref;
  heap : list Morsel
}.

Definition set_cookies (j : gmap string ref) (c : Client) : Client :=
  {| cookies := j; heap := heap c |}.

Definition set_heap (h : list Morsel) (c : Client) : Client :=
  {| cookies := cookies c; heap := h |}.

(** Allocation of a new object. *)
Definition alloc (m : Morsel) (c : Client) : ref * Client :=
  (length (heap c), set_heap (heap c ++ [m])%list c).

(** [Morsel.set(key, val, coded_val)]: changes the value of the object,
    keeps its attributes. *)
Definition Morsel_set (v : string) (m : Morsel) : Morsel :=
  {| value := v; attributes := attributes m |}.

(** [Morsel.update(values)] *)
Definition Morsel_update (data : list (string * string)) (m : Morsel) : Morsel :=
  {| value := value m;
     attributes := (data ++ filter (fun kv => bool_decide (kv.1 ∉ data.*1)) (attributes m))%list |}.

(** [BaseCookie.__setitem__(key, value)] with a [str] value, through
    [BaseCookie.__set]: [M = self.get(key, Morsel()); M.set(key, ...);
    dict.__setitem__(self, key, M)]. An existing [Morsel] is changed in
    place. *)
Definition setitem_str (key v : string) (c : Client) : Client :=
  match cookies c !! key with
  | Some r => set_heap (alter (Morsel_set v) r (heap c)) c
  | None =>
      let '(r, c') := alloc {| value := v; attributes := [] |} c in
      set_cookies (<[key := r]> (cookies c')) c'
  end.

(** [BaseCookie.__setitem__(key, value)] with a [Morsel] value:
    [dict.__setitem__(self, key, value)]. *)
Definition setitem_morsel (key : string) (r : ref) (c : Client) : Client :=
  set_cookies (<[key := r]> (cookies c)) c.

(** [self.cookies.pop(key)], with no default. *)
Definition pop (key : string) (c : Client) : exn + Client :=
  match cookies c !! key with
  | Some _ => inr (set_cookies (delete key (cookies c)) c)
  | None => inl (Exn "KeyError")
  end.

(** [self.cookies.update(response.cookies)]: the names are bound to the
    response's own [Morsel] objects. *)
Fixpoint update (response_cookies : list (string * Morsel)) (c : Client) : Client :=
  match response_cookies with
  | [] => c
  | (key, m) :: rest =>
      let '(r, c') := alloc m c in
      update rest (set_cookies (<[key := r]> (cookies c')) c')
  end.

(** The value a cookie of the jar has, as a request would send it. *)
Definition cookie (key : string) (c : Client) : option Morsel :=
  r ← cookies c !! key; heap c !! r.

Definition cookie_value (key : string) (c : Client) : option string :=
  value <$> cookie key c.

Section Request.

Variable User : Type.
Variable Args : Type.
Variable Response : Type.

(** [settings.SESSION_COOKIE_NAME] *)
Variable session_key : string.

(** The session engine: the key of a new anonymous session, and the key
    the session of a client has after [django.contrib.auth.login], from
    the key it had before. *)
Variable new_session : Client -> string.
Variable login : User -> string -> string.

(** The attributes [Client._login] gives the session cookie. *)
Variable cookie_data : list (string * string).

(** The request handler of the application under test: it raises, or
    returns a response with the cookies that response sets. *)
Variable handler : Args -> Client -> exn + (Response * list (string * Morsel)).

(** [Client.session]: a client with no session cookie gets a new
    session and its cookie. *)
Definition session (c : Client) : string * Client :=
  match cookie_value session_key c with
  | Some k => (k, c)
  | None =>
      let k := new_session c in
      (k, setitem_str session_key k c)
  end.

(** [Client.force_login] (Django's [Client._login]):
    [self.cookies[session_cookie] = request.session.session_key], then
    [self.cookies[session_cookie].update(cookie_data)]. *)
Definition force_login (u : User) (c : Client) : Client :=
  let '(k, c1) := session c in
  let c2 := setitem_str session_key (login u k) c1 in
  match cookies c2 !! session_key with
  | Some r => set_heap (alter (Morsel_update cookie_data) r (heap c2)) c2
  | None => c2
  end.

(** Django's [Client.request]: an exception of the view is raised again
    to the caller; otherwise the cookies of the response enter the
    jar. *)
Definition super_request (args : Args) (c : Client) : (exn + Response) * Client :=
  match handler args c with
  | inl e => (inl e, c)
  | inr (response, response_cookies) => (inr response, update response_cookies c)
  end.

(** [UserClient.request]. The [finally] clause runs on both exits of
    the [try]; an exception raised in it replaces the pending result. *)
Definition request (as_user : option User) (args : Args) (c : Client)
  : (exn + Response) * Client :=
  match as_user with
  | Some u =>
      let previous_session := cookies c !! session_key in
      let c1 := force_login u c in
      let '(result, c2) := super_request args c1 in
      match previous_session with
      | Some m => (result, setitem_morsel session_key m c2)
      | None =>
          match pop session_key c2 with
          | inr c3 => (result, c3)
          | inl e => (inl e, c2)
          end
      end
  | None => super_request args c
  end.

End Request.

(** A session engine, handlers and a client for the examples: the
    client holds the session of alice. *)
Definition example_login (u : string) (k : string) : string := "session-of-" ++ u.

Definition example_handler (_ : unit) (_ : Client)
  : exn + (unit * list (string * Morsel)) := inr (tt, []).

Definition example_raising_handler (_ : unit) (_ : Client)
  : exn + (unit * list (string * Morsel)) := inl (Exn "ValueError").

Definition logged_in_client : Client :=
  {| cookies := {[ "sessionid" := O ]};
     heap := [ {| value := "session-of-alice"; attributes := [("path", "/")] |} ] |}.

Definition fresh_client : Client := {| cookies := ∅; heap := [] |}.

End UserClient.

(** ** conftest.py: the outbound HTTP mock *)

Module HttpMock.
Import Py.

(** [MockResponse] has no fields of its own. *)
Inductive MockResponse : Type :=
| MockResponse_new.

(** [MockResponse.json()] *)
Definition json (_ : MockResponse) : list (string * string) :=
  [("mock_key", "mock_response")].

(** [MockResponse.status_code] *)
Definition status_code (_ : MockResponse) : Z := 200.

(** The content of [BytesIO(b'Some file')]. *)
Definition some_file : list Byte.byte := list_byte_of_string "Some file".

(** The range of [Py_ssize_t] on a 64-bit platform: [BytesIO.read]
    takes its size as one. *)
Definition ssize_t_min : Z := - 2 ^ 63.
Definition ssize_t_max : Z := 2 ^ 63 - 1.

Definition fits_ssize_t (size : option Z) : Prop :=
  match size with
  | None => True
  | Some n => ssize_t_min <= n <= ssize_t_max
  end.

(** [file.read(size)] on the bytes not read yet: the chunk, and what is
    left. [None] and a negative size read to the end; a size that does
    not fit [Py_ssize_t] raises. *)
Definition read (size : option Z) (file : list Byte.byte)
  : exn + (list Byte.byte * list Byte.byte) :=
  match size with
  | None => inr (file, [])
  | Some n =>
      if (n <? ssize_t_min)%Z || (ssize_t_max <? n)%Z then inl (Exn "OverflowError")
      else if (n <? 0)%Z then inr (file, [])
      else inr (take (Z.to_nat n) file, drop (Z.to_nat n) file)
  end.

(** The [while True] loop of [iter_content]: the chunks it yields, and
    the exception it ends in, if any; [None] when [fuel] iterations do
    not reach the end. *)
Fixpoint iter_content_loop (fuel : nat) (chunk_size : option Z)
    (file : list Byte.byte) : option (list (list Byte.byte) * option exn) :=
  match fuel with
  | O => None
  | S fuel' =>
      match read chunk_size file with
      | inl e => Some ([], Some e)
      | inr (chunk, file') =>
          match chunk with
          | [] => Some ([], None)
          | _ :: _ =>
              (fun rest => (chunk :: rest.1, rest.2))
                <$> iter_content_loop fuel' chunk_size file'
          end
      end
  end.

(** [MockResponse.iter_content(chunk_size, decode_unicode)], run to its
    end. *)
Definition iter_content (_ : MockResponse) (fuel : nat) (chunk_size : option Z)
  : option (list (list Byte.byte) * option exn) :=
  iter_content_loop fuel chunk_size some_file.

(** What an attribute of the [requests] module can be bound to. *)
Inductive callable : Type :=
| library_function (name : string)
| mock_http_call.

(** The attributes of the [requests] module. *)
Abbreviation module := (gmap string callable).

(** [requests] as the library defines it. *)
Definition requests_module : module :=
  list_to_map
    (map (fun n => (n, library_function n))
       ["request"; "get"; "options"; "head"; "post"; "put"; "patch"; "delete"]).

(** [pytest.MonkeyPatch]: the attributes it has set, with the values
    they had, the last one first. *)
Definition MonkeyPatch : Type := list (string * callable).

(** [monkeypatch.setattr(requests, name, value)]: an attribute the
    module does not have raises. *)
Definition setattr (name : string) (v : callable) (st : MonkeyPatch * module)
  : exn + (MonkeyPatch * module) :=
  match st.2 !! name with
  | Some old => inr ((name, old) :: st.1, <[name := v]> st.2)
  | None => inl (Exn "AttributeError")
  end.

(** [monkeypatch.undo()], which pytest runs when the test is over. *)
Definition undo (st : MonkeyPatch * module) : MonkeyPatch * module :=
  ([], fold_left (fun m kv => <[kv.1 := kv.2]> m) st.1 st.2).

(** The fixture [mock_response]. *)
Definition mock_response (st : MonkeyPatch * module) : exn + (MonkeyPatch * module) :=
  st1 ← setattr "get" mock_http_call st;
  st2 ← setattr "post" mock_http_call st1;
  st3 ← setattr "patch" mock_http_call st2;
  setattr "delete" mock_http_call st3.

Section Calls.

(** Arguments of a call, and what the network answers. *)
Variable Args : Type.
Variable RealResponse : Type.
Variable network : string -> Args -> RealResponse.

Inductive response : Type :=
| Mock (r : MockResponse)
| Real (r : RealResponse).

(** Network I/O a call performs. *)
Inductive event : Type :=
| NetworkIO (verb : string) (args : Args).

(** Calling what a name is bound to. *)
Definition call (f : callable) (args : Args) : response * list event :=
  match f with
  | mock_http_call => (Mock MockResponse_new, [])
  | library_function verb => (Real (network verb args), [NetworkIO verb args])
  end.

(** A call [requests.<name>(...)], whatever its arguments. *)
Definition call_attr (m : module) (name : string) (args : Args)
  : exn + (response * list event) :=
  match m !! name with
  | Some f => inr (call f args)
  | None => inl (Exn "AttributeError")
  end.

End Calls.

Arguments Mock {RealResponse} r.
Arguments Real {RealResponse} r.
Arguments NetworkIO {Args} verb args.

Definition mocked_verbs : list string := ["get"; "post"; "patch"; "delete"].

(** Chunks of [k] bytes each, the last one of at most [k] and not
    empty. *)
Fixpoint evenly_cut (k : nat) (chunks : list (list Byte.byte)) : Prop :=
  match chunks with
  | [] => True
  | c :: rest =>
      match rest with
      | [] => (0 < length c <= k)%nat
      | _ :: _ => length c = k ∧ evenly_cut k rest
      end
  end.

End HttpMock.

(** ** main/views.py: the account views *)

Module Views.
Import Py.

Inductive Method : Type := GET | POST | PUT | PATCH | DELETE | HEAD | OPTIONS.

#[global] Instance Method_eq_dec : EqDecision Method.
Proof. solve_decision. Defined.

(** A [QueryDict]: the submitted fields, in order. *)
Definition QueryDict : Type := list (string * string).

(** [QueryDict.get(key)]: the last value submitted under [key], [None]
    when there is none. *)
Definition QueryDict_get (key : string) (d : QueryDict) : option string :=
  snd <$> last (filter (fun kv => kv.1 = key) d).

(** A row of the user table; the flags are those the factories of
    conftest.py set. *)
Record User : Type := {
  pk : nat;
  email : string;
  first_name : string;
  last_name : string;
  is_active : bool;
  email_confirmed : bool;
  is_staff : bool;
  is_superuser : bool
}.

(** A row of the API token table: the token of [user_id]. *)
Record Token : Type := {
  key : string;
  user_id : nat
}.

(** A message in the outbox. *)
Inductive Mail : Type :=
| ConfirmationEmail (to : string)
| PasswordResetEmail (to : string).

(** What the views read and write: the two tables, the outbox, and the
    state of the random source the token keys are drawn from. *)
Record World : Type := {
  users : list User;
  tokens : list Token;
  outbox : list Mail;
  entropy : nat
}.

(** A request: [body] is the submitted form, [user] the primary key of
    [request.user], [None] for [AnonymousUser]. *)
Record Request : Type := {
  method : Method;
  body : QueryDict;
  user : option nat
}.

(** [request.POST]: only a POST request has form data. *)
Definition POST_of (request : Request) : QueryDict :=
  match method request with
  | POST => body request
  | _ => []
  end.

(** [request.POST or None]: an empty [QueryDict] is false. *)
Definition POST_or_None (request : Request) : option QueryDict :=
  match POST_of request with
  | [] => None
  | d => Some d
  end.

(** A form as a template sees it. *)
Record Form : Type := {
  data : option QueryDict;
  instance : option User;
  errors : list string
}.

(** [form.is_valid()]: the form is bound and has no errors. *)
Definition is_valid (form : Form) : bool :=
  match data form, errors form with
  | Some _, [] => true
  | _, _ => false
  end.

Inductive Response : Type :=
| TemplateResponse (status : Z) (template_name : string) (form : option Form)
| HttpResponseRedirect (url : string)
| HttpResponse (status : Z)
| ApiResponse (status : Z) (payload : list (string * string)).

Definition status_code (r : Response) : Z :=
  match r with
  | TemplateResponse s _ _ => s
  | HttpResponseRedirect _ => 302
  | HttpResponse s => s
  | ApiResponse s _ => s
  end.

(** [render(request, template_name, context)] *)
Definition render (template_name : string) (form : option Form) : Response :=
  TemplateResponse 200 template_name form.

(** [User.objects.get(email=...)] *)
Inductive get_result : Type :=
| Found (u : User)
| DoesNotExist
| MultipleObjectsReturned.

Definition objects_get (address : option string) (table : list User) : get_result :=
  match address with
  | None => DoesNotExist
  | Some a =>
      match filter (fun u => email u = a) table with
      | [] => DoesNotExist
      | [u] => Found u
      | _ => MultipleObjectsReturned
      end
  end.

(** The row of [request.user], as the authentication layer resolves it. *)
Definition request_user (request : Request) (w : World) : option User :=
  p ← user request; List.find (fun u => Nat.eqb (pk u) p) (users w).

Definition add_mail (m : list Mail) (w : World) : World :=
  {| users := users w; tokens := tokens w;
     outbox := (outbox w ++ m)%list; entropy := entropy w |}.

Definition set_users (us : list User) (w : World) : World :=
  {| users := us; tokens := tokens w; outbox := outbox w; entropy := entropy w |}.

(** Modelled from the spec: [User.send_confirmation_email] (models.py is
    not among the sources): one confirmation message to the address of
    the user. *)
Definition send_confirmation_email (u : User) (w : World) : World :=
  add_mail [ConfirmationEmail (email u)] w.

Definition new_pk (table : list User) : nat :=
  S (foldr Nat.max O (pk <$> table)).

Section Handlers.

(** [PasswordResetView.success_url] and the target of [login_required]. *)
Variable success_url : string.
Variable login_url : string.

(** Validation of the three forms (forms.py is not among the sources):
    the error messages a submission gets, none when it is valid. The
    reset form has one email field and does not read the tables. *)
Variable reset_form_errors : QueryDict -> list string.
Variable signup_form_errors : QueryDict -> list User -> list string.
Variable user_form_errors : QueryDict -> User -> list User -> list string.

(** [Token.generate_key], from the state of the random source. *)
Variable generate_key : nat -> string.

(** Modelled from the spec: the deletion of the token rows of a user
    (models.py is not among the sources), which invalidates the prior
    token. *)
Definition Token_delete (u : nat) (w : World) : World :=
  {| users := users w;
     tokens := filter (fun t => user_id t ≠ u) (tokens w);
     outbox := outbox w; entropy := entropy w |}.

(** Modelled from the spec: the creation of a token row (models.py is
    not among the sources), with a key from the generator. *)
Definition Token_create (u : nat) (w : World) : Token * World :=
  let t := {| key := generate_key (entropy w); user_id := u |} in
  (t, {| users := users w; tokens := (tokens w ++ [t])%list;
         outbox := outbox w; entropy := S (entropy w) |}).

(** Modelled from the spec: [User.get_new_token] (models.py is not among
    the sources): the token is regenerated, the previous one no longer
    valid. *)
Definition get_new_token (u : nat) (w : World) : Token * World :=
  Token_create u (Token_delete u w).

(** [user.auth_token]: the one row of the token table for the user. *)
Definition auth_token (u : nat) (w : World) : option Token :=
  match filter (fun t => user_id t = u) (tokens w) with
  | [t] => Some t
  | _ => None
  end.

(** Modelled from the spec: [SignupForm.save] (forms.py is not among
    the sources): an inactive, unconfirmed user with its API token, and
    a confirmation message. *)
Definition SignupForm_save (d : QueryDict) (w : World) : World :=
  let u := {| pk := new_pk (users w);
              email := default EmptyString (QueryDict_get "email" d);
              first_name := default EmptyString (QueryDict_get "first_name" d);
              last_name := default EmptyString (QueryDict_get "last_name" d);
              is_active := false; email_confirmed := false;
              is_staff := false; is_superuser := false |} in
  let w1 := set_users (users w ++ [u])%list w in
  send_confirmation_email u (Token_create (pk u) w1).2.

(** Modelled from the spec: [UserForm.save] (forms.py is not among the
    sources): the submitted address and names replace those of the
    row. *)
Definition UserForm_apply (d : QueryDict) (u : User) : User :=
  {| pk := pk u;
     email := default (email u) (QueryDict_get "email" d);
     first_name := default (first_name u) (QueryDict_get "first_name" d);
     last_name := default (last_name u) (QueryDict_get "last_name" d);
     is_active := is_active u; email_confirmed := email_confirmed u;
     is_staff := is_staff u; is_superuser := is_superuser u |}.

Definition UserForm_save (d : QueryDict) (u : User) (w : World) : World :=
  set_users
    ((fun x => if Nat.eqb (pk x) (pk u) then UserForm_apply d x else x) <$> users w)
    w.

(** [SignupForm(request.POST or None, request=request)] *)
Definition SignupForm (request : Request) (w : World) : Form :=
  let d := POST_or_None request in
  {| data := d; instance := None;
     errors := from_option (fun d => signup_form_errors d (users w)) [] d |}.

(** [sign_up] *)
Definition sign_up (request : Request) (w : World) : Response * World :=
  let form := SignupForm request w in
  match method request, data form with
  | POST, Some d =>
      if is_valid form then
        (render "registration/sign_up_success.html" None, SignupForm_save d w)
      else (render "registration/sign_up.html" (Some form), w)
  | _, _ => (render "registration/sign_up.html" (Some form), w)
  end.

(** Modelled from the spec: [forms.PasswordResetForm.save] (forms.py is
    not among the sources): a password-reset message to the active
    user registered under the address. *)
Definition PasswordResetForm_save (d : QueryDict) (w : World) : World :=
  match QueryDict_get "email" d with
  | Some a =>
      add_mail
        ((fun u => PasswordResetEmail (email u))
           <$> filter (fun u => email u = a ∧ is_active u = true) (users w))
        w
  | None => w
  end.

(** Django's [PasswordResetView], a [FormView]: GET shows the form;
    POST (and PUT) validate it, and either save it and redirect to
    [success_url] or show it again with its errors. *)
Definition OurPasswordResetView (request : Request) (w : World) : Response * World :=
  match method request with
  | GET | HEAD =>
      (render "registration/password_reset_form.html"
         (Some {| data := None; instance := None; errors := [] |}), w)
  | POST | PUT =>
      let d := POST_of request in
      let form := {| data := Some d; instance := None; errors := reset_form_errors d |} in
      if is_valid form then
        (HttpResponseRedirect success_url, PasswordResetForm_save d w)
      else (render "registration/password_reset_form.html" (Some form), w)
  | OPTIONS => (HttpResponse 200, w)
  | PATCH | DELETE => (HttpResponse 405, w)
  end.

(** [reset_password] *)
Definition reset_password (request : Request) (w : World)
  : (exn + Response) * World :=
  let delegate := let '(r, w') := OurPasswordResetView request w in (inr r, w') in
  match method request with
  | POST =>
      match objects_get (QueryDict_get "email" (POST_of request)) (users w) with
      | MultipleObjectsReturned => (inl (Exn "MultipleObjectsReturned"), w)
      | DoesNotExist => delegate
      | Found target_user =>
          if negb (email_confirmed target_user) then
            (inr (HttpResponseRedirect success_url),
             send_confirmation_email target_user w)
          else delegate
      end
  | _ => delegate
  end.

(** Django REST framework's [api_view]: [APIView.dispatch] checks the
    permissions of the request (here: an authenticated user, as the
    [perms_test] table of [reset_token] records) before it looks for
    the handler of the method. *)
Definition api_view (http_method_names : list Method)
    (view : User -> Request -> World -> Response * World)
    (request : Request) (w : World) : Response * World :=
  match request_user request w with
  | None =>
      (ApiResponse 401 [("detail", "Authentication credentials were not provided.")], w)
  | Some u =>
      if bool_decide (method request ∈ http_method_names) then view u request w
      else if bool_decide (method request = OPTIONS) then (ApiResponse 200 [], w)
      else (ApiResponse 405 [("detail", "Method not allowed.")], w)
  end.

(** The body of [reset_token]. *)
Definition reset_token_body (u : User) (request : Request) (w : World)
  : Response * World :=
  let '(token, w') := get_new_token (pk u) w in
  (ApiResponse 200 [("token", key token)], w').

(** [reset_token], under [@api_view(['POST'])] *)
Definition reset_token : Request -> World -> Response * World :=
  api_view [POST] reset_token_body.

(** Django's [login_required]: an anonymous request is sent to the
    login page. *)
Definition login_required
    (view : User -> Request -> World -> Response * World)
    (request : Request) (w : World) : Response * World :=
  match request_user request w with
  | Some u => view u request w
  | None => (HttpResponseRedirect login_url, w)
  end.

(** [UserForm(request.POST or None, instance=request.user)] *)
Definition UserForm (request : Request) (u : User) (w : World) : Form :=
  let d := POST_or_None request in
  {| data := d; instance := Some u;
     errors := from_option (fun d => user_form_errors d u (users w)) [] d |}.

(** The body of [account]. *)
Definition account_body (u : User) (request : Request) (w : World)
  : Response * World :=
  let form := UserForm request u w in
  let w' :=
    match method request, data form with
    | POST, Some d => if is_valid form then UserForm_save d u w else w
    | _, _ => w
    end in
  (render "account.html" (Some form), w').

(** [account], under [@login_required] *)
Definition account : Request -> World -> Response * World :=
  login_required account_body.

(** Modelled from the spec: the confirmation and deactivation flows
    (not among the sources) set the two flags of a row. *)
Definition set_flags (p : nat) (active confirmed : bool) (w : World) : World :=
  set_users
    ((fun x => if Nat.eqb (pk x) p
               then {| pk := pk x; email := email x; first_name := first_name x;
                       last_name := last_name x; is_active := active;
                       email_confirmed := confirmed; is_staff := is_staff x;
                       is_superuser := is_superuser x |}
               else x) <$> users w)
    w.

(** The states the application moves through, one request at a time. *)
Inductive step : World -> World -> Prop :=
| step_sign_up request w : step w (sign_up request w).2
| step_reset_password request w : step w (reset_password request w).2
| step_reset_token request w : step w (reset_token request w).2
| step_account request w : step w (account request w).2
| step_set_flags p a c w : step w (set_flags p a c w).

Definition initial : World :=
  {| users := []; tokens := []; outbox := []; entropy := O |}.

Inductive reachable : World -> Prop :=
| reachable_initial : reachable initial
| reachable_step w w' : reachable w -> step w w' -> reachable w'.

End Handlers.

(** The number of token rows a user has. *)
Definition token_count (u : nat) (w : World) : nat :=
  length (filter (fun t => user_id t = u) (tokens w)).

(** How many messages of each kind a request added to the outbox. *)
Definition is_confirmation (m : Mail) : bool :=
  match m with ConfirmationEmail _ => true | _ => false end.

Definition is_password_reset (m : Mail) : bool :=
  match m with PasswordResetEmail _ => true | _ => false end.

Definition sent (before after : World) : list Mail :=
  drop (length (outbox before)) (outbox after).

(** The addresses on record are all different. *)
Definition distinct_addresses (w : World) : Prop :=
  NoDup (email <$> users w).

(** Each address on record passes the validation of the reset form
    when it is the address submitted. *)
Definition clean_addresses (reset_form_errors : QueryDict -> list string)
    (w : World) : Prop :=
  ∀ u d, u ∈ users w → QueryDict_get "email" d = Some (email u) →
         reset_form_errors d = [].

(** Each user has exactly one row in the token table. *)
Definition one_token_each (w : World) : Prop :=
  ∀ u, u ∈ users w → token_count (pk u) w = 1%nat.

(** Each row of the token table is the token of a user. *)
Definition tokens_owned (w : World) : Prop :=
  ∀ t, t ∈ tokens w → user_id t ∈ pk <$> users w.

(** The two together, by primary key: the invariant of the token
    table. *)
Definition token_invariant (w : World) : Prop :=
  (∀ p, p ∈ pk <$> users w → token_count p w = 1%nat) ∧ tokens_owned w.

(** Parameters and data for the examples. *)
Definition example_reset_form_errors (d : QueryDict) : list string :=
  match QueryDict_get "email" d with
  | Some (String _ _) => []
  | _ => ["This field is required."]
  end.

Definition example_signup_form_errors (d : QueryDict) (table : list User)
  : list string :=
  match QueryDict_get "email" d with
  | Some (String _ _ as a) =>
      if bool_decide (a ∈ email <$> table)
      then ["A user with that email address already exists."] else []
  | _ => ["This field is required."]
  end.

Definition example_user_form_errors (d : QueryDict) (u : User) (table : list User)
  : list string :=
  match QueryDict_get "email" d with
  | Some (String _ _) => []
  | _ => ["This field is required."]
  end.

Fixpoint example_generate_key (n : nat) : string :=
  match n with
  | O => "k"
  | S n' => String "x" (example_generate_key n')
  end.

Definition example_user (p : nat) (address : string) (active confirmed : bool) : User :=
  {| pk := p; email := address; first_name := "Test"; last_name := "User";
     is_active := active; email_confirmed := confirmed;
     is_staff := false; is_superuser := false |}.

Definition example_world (table : list User) : World :=
  {| users := table;
     tokens := (fun u => {| key := "token-" ++ email u; user_id := pk u |}) <$> table;
     outbox := []; entropy := O |}.

Definition post (fields : QueryDict) (who : option nat) : Request :=
  {| method := POST; body := fields; user := who |}.

End Views.

(** ** conftest.py: statements run through the tracing cursor *)

Module Tracing.
Import Py QueryCount.

(** A frame [get_userland_stack_frame] passes over: no source line, or
    a file of the Python library. *)
Definition passed_over (python_lib_path : string) (f : FrameInfo) : Prop :=
  truthy_context f = false ∨ startswith (filename f) python_lib_path = true.

Section Cursor.

Variable python_lib_path : string.

(** [TracingDebugWrapper.execute] and [executemany]: the cursor logs
    the statement, and the [finally] clause runs [capture_stack] on the
    entry just logged, whether the statement succeeded or raised. *)
Definition execute (stk : list FrameInfo) (text : string) (raised : option exn)
    (queries_log : list Query) : option exn * list Query :=
  (raised, log_append queries_log (capture_stack python_lib_path stk text)).

(** A run of statements, each with the stack it is called from. *)
Definition execute_all (calls : list (list FrameInfo * string))
    (queries_log : list Query) : list Query :=
  fold_left (fun log call => (execute call.1 call.2 None log).2) calls queries_log.

(** A block whose statements all go through the tracing cursor. *)
Definition traced_block (calls : list (list FrameInfo * string))
    (raises : option exn) : Block :=
  {| issued := execute_all calls []; raises := raises |}.

End Cursor.

(** A stack for the examples: the two frames of the wrapper, a frame of
    the library, and the test. *)
Definition example_stack : list FrameInfo :=
  [ {| filename := "/app/conftest.py"; lineno := 98;
       code_context := Some ["stack = inspect.stack()"] |};
    {| filename := "/app/conftest.py"; lineno := 116;
       code_context := Some ["self.capture_stack()"] |};
    {| filename := "/usr/lib/python3/site-packages/django/db/models/query.py";
       lineno := 1; code_context := Some ["cursor.execute(sql, params)"] |};
    {| filename := "/app/main/views.py"; lineno := 145;
       code_context := Some ["target_user = User.objects.get(email=email)"] |} ].

(** A frame whose source is not available. *)
Definition sourceless_frame : FrameInfo :=
  {| filename := "<frozen importlib._bootstrap>"; lineno := 241;
     code_context := None |}.

End Tracing.

(** ** conftest.py: registration of the factories *)

Module RegisterFactory.
Import Py.

Definition in_range (lo hi : nat) (c : ascii) : bool :=
  let n := nat_of_ascii c in (lo <=? n)%nat && (n <=? hi)%nat.

Definition is_upper : ascii -> bool := in_range 65 90.     (* [A-Z] *)
Definition is_lower : ascii -> bool := in_range 97 122.    (* [a-z] *)
Definition is_digit : ascii -> bool := in_range 48 57.     (* [0-9] *)

(** Whether the pattern
    [((?<=[a-z0-9])[A-Z]|(?!^)[A-Z](?=[a-z]))] matches at a character,
    given the character before it ([None] at the start of the string)
    and the one after it ([None] at the end). *)
Definition matches (prev : option ascii) (c : ascii) (next : option ascii) : bool :=
  is_upper c
  && (match prev with
      | Some p => is_lower p || is_digit p
      | None => false
      end
      || (match prev with Some _ => true | None => false end
          && match next with Some n => is_lower n | None => false end)).

(** [re.sub(pattern, r'_\1', s)]: every match, one character long, gets
    an underscore in front of it. *)
Fixpoint sub (prev : option ascii) (s : string) : string :=
  match s with
  | EmptyString => EmptyString
  | String c r =>
      let next := match r with
                  | String n _ => Some n
                  | EmptyString => None
                  end in
      if matches prev c next then String "_" (String c (sub (Some c) r))
      else String c (sub (Some c) r)
  end.

(** [camel_case_name], from [cls.__name__]. *)
Definition camel_case_name (name : string) : string := lower (sub None name).

(** The text before the last occurrence of [sep] in [s], if [sep]
    occurs. *)
Fixpoint rfind_head (sep s : string) : option string :=
  match s with
  | EmptyString => None
  | String c r =>
      match rfind_head sep r with
      | Some h => Some (String c h)
      | None => if String.prefix sep s then Some EmptyString else None
      end
  end.

(** [s.rsplit(sep, 1)[0]], for a separator that is not empty. *)
Definition rsplit_head (sep s : string) : string :=
  default s (rfind_head sep s).

(** The two fixtures [register_factory] makes for a class. *)
Inductive fixture : Type :=
| factory_fixture (cls : string)
| instance_fixture (cls : string).

(** [register_factory]: the two assignments to [globals()]. *)
Definition register_factory (cls : string) (globals : gmap string fixture)
  : gmap string fixture :=
  let camel_case_name := camel_case_name cls in
  <[rsplit_head "_factory" camel_case_name := instance_fixture cls]>
    (<[camel_case_name := factory_fixture cls]> globals).

(** Whether [sep] occurs in [s]. *)
Definition occurs (sep s : string) : bool :=
  match rfind_head sep s with Some _ => true | None => false end.

(** [s] without its underscores. *)
Fixpoint without_underscores (s : string) : string :=
  match s with
  | EmptyString => EmptyString
  | String c r =>
      if Ascii.eqb c "_"%char then without_underscores r
      else String c (without_underscores r)
  end.

Fixpoint all_chars (p : ascii -> bool) (s : string) : bool :=
  match s with
  | EmptyString => true
  | String c r => p c && all_chars p r
  end.

End RegisterFactory.

(** ** conftest.py: the user factories *)

Module Factories.
Import Py Views.

(** [factory.Sequence(lambda n: 'user%s@example.com' % n)] *)
Definition UserFactory_email (n : nat) : string :=
  "user" ++ pretty n ++ "@example.com".

(** The rows the four user factories build: [n] is the sequence number,
    the primary key comes from the database and the names from Faker. *)
Definition UserFactory (p n : nat) (first last : string) : User :=
  {| pk := p; email := UserFactory_email n; first_name := first; last_name := last;
     is_active := true; email_confirmed := true;
     is_staff := false; is_superuser := false |}.

Definition UnconfirmedUserFactory (p n : nat) (first last : string) : User :=
  {| pk := p; email := UserFactory_email n; first_name := first; last_name := last;
     is_active := true; email_confirmed := false;
     is_staff := false; is_superuser := false |}.

Definition DeactivatedUserFactory (p n : nat) (first last : string) : User :=
  {| pk := p; email := UserFactory_email n; first_name := first; last_name := last;
     is_active := false; email_confirmed := true;
     is_staff := false; is_superuser := false |}.

Definition AdminUserFactory (p n : nat) (first last : string) : User :=
  {| pk := p; email := UserFactory_email n; first_name := first; last_name := last;
     is_active := true; email_confirmed := true;
     is_staff := true; is_superuser := true |}.

(** A row built by one of the four factories with sequence number [n]. *)
Definition built_by_factory (n : nat) (u : User) : Prop :=
  email u = UserFactory_email n.

End Factories.

(** ** fabfile.py *)

Module Fabfile.
Import Py.

(** What [setup_django] reads and writes: the module flag, [sys.path],
    and how often [django.setup()] has run. *)
Record Process : Type := {
  _django_setup : bool;
  sys_path : list string;
  django_setup_calls : nat
}.

(** [setup_django(func)]: the wrapper it returns. *)
Definition setup_django {A : Type} (func : Process -> A * Process)
  : Process -> A * Process :=
  fun st =>
    let st' :=
      if negb (_django_setup st) then
        {| _django_setup := true;
           sys_path := EmptyString :: sys_path st;
           django_setup_calls := S (django_setup_calls st) |}
      else st in
    func st'.

(** Running tasks one after the other. *)
Definition run_tasks {A : Type} (tasks : list (Process -> A * Process))
    (st : Process) : Process :=
  fold_left (fun st task => (task st).2) tasks st.

(** A task body that leaves the flag and the count alone. *)
Definition plain_task {A : Type} (func : Process -> A * Process) : Prop :=
  ∀ st, _django_setup (func st).2 = _django_setup st
        ∧ django_setup_calls (func st).2 = django_setup_calls st.

(** [run_django]: the command it hands to [local]. A variable of the
    environment is true when it is set and not empty. *)
Definition run_django (port : option string) (environ : gmap string string)
  : string :=
  let port :=
    match port with
    | Some p => p
    | None =>
        match environ !! "DOCKERIZED" with
        | Some (String _ _) => "0.0.0.0:8000"
        | _ => "127.0.0.1:8000"
        end
    end in
  "python manage.py runserver " ++ port.

End Fabfile.

(** * Properties *)

(** ** The query-count assertion *)

Module QueryCountProps.
Import Py QueryCount Tracing.

Lemma dict_get_Some_elem k v (d : dict) : dict_get k d = Some v → (k, v) ∈ d.
Proof.
  induction d as [|[k' v'] d IH]; simpl; [done|].
  destruct (String.eqb_spec k k') as [->|Hne].
  - intros [= ->]. left.
  - intros H. right. auto.
Qed.

Lemma dict_get_None k (d : dict) : dict_get k d = None ↔ k ∉ keys d.
Proof.
  induction d as [|[k' v'] d IH]; simpl.
  - split; [intros _; apply not_elem_of_nil | done].
  - destruct (String.eqb_spec k k') as [->|Hne].
    + split; [done|]. intros H. exfalso. apply H. left.
    + rewrite IH, not_elem_of_cons. split; [by split | by intros [_ ?]].
Qed.

Lemma elem_dict_get k v (d : dict) :
  NoDup (keys d) → (k, v) ∈ d → dict_get k d = Some v.
Proof.
  induction d as [|[k' v'] d IH]; simpl.
  - intros _ H. by apply elem_of_nil in H.
  - intros Hnd Hin. apply NoDup_cons in Hnd as [Hk Hnd].
    apply elem_of_cons in Hin as [[= -> ->]|Hin].
    + by rewrite String.eqb_refl.
    + destruct (String.eqb_spec k k') as [->|Hne]; [|auto].
      exfalso. apply Hk. apply (list_elem_of_fmap_2 fst) in Hin. done.
Qed.

Lemma dict_get_is_Some k (d : dict) : is_Some (dict_get k d) ↔ k ∈ keys d.
Proof.
  rewrite <- not_eq_None_Some, dict_get_None.
  split; [apply dec_stable | auto].
Qed.

(** Equality of two dicts is equality of their lookups. *)
Lemma dict_eqb_lookup (a b : dict) :
  NoDup (keys a) → NoDup (keys b) →
  dict_eqb a b = true ↔ ∀ k, dict_get k a = dict_get k b.
Proof.
  intros Ha Hb. unfold dict_eqb.
  rewrite andb_true_iff, Nat.eqb_eq, forallb_forall.
  split.
  - intros [Hlen Hall].
    assert (Hsub : ∀ k v, dict_get k a = Some v → dict_get k b = Some v).
    { intros k v Hk. apply dict_get_Some_elem, list_elem_of_In in Hk.
      specialize (Hall _ Hk). simpl in Hall.
      destruct (dict_get k b) as [v'|]; [|done].
      apply Z.eqb_eq in Hall. by subst. }
    assert (Hperm : keys a ≡ₚ keys b).
    { apply submseteq_length_Permutation.
      - apply NoDup_submseteq; [done|]. intros k Hk.
        apply dict_get_is_Some in Hk as [v Hv].
        apply dict_get_is_Some. eauto.
      - unfold keys. rewrite !length_map. lia. }
    intros k. destruct (dict_get k a) as [v|] eqn:Hka.
    + symmetry. auto.
    + symmetry. apply dict_get_None. apply dict_get_None in Hka.
      by rewrite <- Hperm.
  - intros Heq. split.
    + assert (Hperm : keys a ≡ₚ keys b).
      { apply NoDup_Permutation; [done..|]. intros k.
        rewrite <- !dict_get_is_Some. by rewrite Heq. }
      apply Permutation_length in Hperm. unfold keys in Hperm.
      by rewrite !length_map in Hperm.
    + intros [k v] Hin. simpl. apply list_elem_of_In in Hin.
      apply elem_dict_get in Hin; [|done].
      rewrite <- Heq, Hin. apply Z.eqb_refl.
Qed.

Lemma dict_get_incr k t (d : dict) :
  dict_get k (incr t d) =
    if String.eqb k t then Some (default 0 (dict_get k d) + 1) else dict_get k d.
Proof.
  induction d as [|[k' v'] d IH]; simpl.
  - by destruct (String.eqb k t).
  - destruct (String.eqb_spec t k') as [->|Hne]; simpl.
    + by destruct (String.eqb k k').
    + rewrite IH. destruct (String.eqb_spec k t) as [->|Hkt]; [|done].
      destruct (String.eqb_spec t k'); [done|]. done.
Qed.

Lemma keys_incr_NoDup t (d : dict) : NoDup (keys d) → NoDup (keys (incr t d)).
Proof.
  induction d as [|[k' v'] d IH]; simpl.
  - intros _. apply NoDup_singleton.
  - intros Hnd. apply NoDup_cons in Hnd as [Hk Hnd].
    destruct (String.eqb_spec t k') as [->|Hne]; simpl.
    + by apply NoDup_cons.
    + apply NoDup_cons. split; [|auto].
      intros Hin. apply dict_get_is_Some in Hin.
      rewrite dict_get_incr in Hin.
      destruct (String.eqb_spec k' t); [congruence|].
      apply dict_get_is_Some in Hin. done.
Qed.

Lemma count_loop_NoDup qs (d : dict) :
  NoDup (keys d) → NoDup (keys (fold_left count_step qs d)).
Proof.
  revert d. induction qs as [|q qs IH]; simpl; [done|].
  intros d Hd. apply IH. unfold count_step.
  destruct (negb _); [by apply keys_incr_NoDup | done].
Qed.

Lemma occurrences_cons t q qs :
  occurrences t (q :: qs) =
    ((if String.eqb t (query_type q) then 1 else 0) + occurrences t qs)%nat.
Proof.
  unfold occurrences. rewrite filter_cons.
  destruct (String.eqb_spec t (query_type q)) as [->|Hne].
  - rewrite decide_True by done. done.
  - rewrite decide_False by congruence. done.
Qed.

(** What the counting loop leaves under a key: the count it started
    with, plus the occurrences of a counted type. *)
Lemma count_loop_get k qs (d : dict) :
  dict_get k (fold_left count_step qs d) =
    if is_ignored k then dict_get k d
    else match occurrences k qs with
         | O => dict_get k d
         | S n => Some (default 0 (dict_get k d) + Z.of_nat (S n))
         end.
Proof.
  revert d. induction qs as [|q qs IH]; intros d; simpl fold_left.
  - unfold occurrences. simpl. by destruct (is_ignored k).
  - rewrite IH, occurrences_cons. unfold count_step.
    destruct (is_ignored k) eqn:Hk.
    + destruct (is_ignored (query_type q)) eqn:Hq; simpl; [done|].
      rewrite dict_get_incr.
      destruct (String.eqb_spec k (query_type q)) as [->|]; [congruence|done].
    + destruct (String.eqb_spec k (query_type q)) as [->|Hne].
      * rewrite Hk. simpl negb. cbv iota. rewrite dict_get_incr, String.eqb_refl.
        simpl default. destruct (occurrences (query_type q) qs); simpl plus.
        -- done.
        -- f_equal. lia.
      * assert (Hsame : dict_get k
                  (if negb (is_ignored (query_type q))
                   then incr (query_type q) d else d) = dict_get k d).
        { destruct (negb _); [|done]. rewrite dict_get_incr.
          by destruct (String.eqb_spec k (query_type q)). }
        rewrite Hsame. done.
Qed.

(** The dict the loop builds is the histogram of the captured
    statements. *)
Lemma count_queries_histogram captured k :
  dict_get k (count_queries captured) = histogram captured k.
Proof.
  unfold count_queries, histogram.
  rewrite count_loop_get. simpl dict_get.
  destruct (is_ignored k); [done|].
  destruct (occurrences k captured); [done|]. f_equal.
Qed.

Lemma count_queries_NoDup captured : NoDup (keys (count_queries captured)).
Proof. apply (count_loop_NoDup captured []). apply NoDup_nil_2. Qed.

Section Assertion.

Variable python_lib_path : string.
Variable repr_dict : dict -> string.
Variable str_int : Z -> string.
Variable rstrip : string -> string.
Variable sub_literals : string -> string.

Lemma append_assoc (a b c : string) : (a ++ b) ++ c = a ++ (b ++ c).
Proof.
  induction a as [|x a IH]; [reflexivity|].
  change (String x ((a ++ b) ++ c) = String x (a ++ (b ++ c))). by f_equal.
Qed.

Lemma append_empty (a : string) : a = a ++ EmptyString.
Proof.
  induction a as [|x a IH]; [reflexivity|].
  change (String x a = String x (a ++ EmptyString)). by f_equal.
Qed.

Lemma frames_text_inr fs msg :
  Forall (fun f => truthy_context f = true) fs →
  ∃ t, frames_text str_int rstrip fs msg = inr (msg ++ t).
Proof.
  intros H. revert msg. induction H as [|f fs Hf _ IH]; intros msg; simpl.
  - exists EmptyString. f_equal. apply append_empty.
  - unfold frame_text, truthy_context in *.
    destruct (code_context f) as [[|line ?]|]; try discriminate.
    destruct (IH (msg ++ (filename f ++ ":" ++ str_int (lineno f) ++ ":" ++ nl
                          ++ rstrip line ++ nl))) as [t Ht].
    rewrite Ht, append_assoc. eauto.
Qed.

Lemma queries_text_inr verbose qs msg :
  Forall (printable verbose) qs →
  ∃ t, queries_text str_int rstrip sub_literals verbose qs msg = inr (msg ++ t).
Proof.
  intros H. revert msg. induction H as [|q qs Hq _ IH]; intros msg; simpl.
  - exists EmptyString. f_equal. apply append_empty.
  - destruct (frames_text_inr _ msg Hq) as [t ->].
    destruct (IH ((msg ++ t) ++ sub_literals (sql q) ++ nl ++ nl)) as [t' ->].
    rewrite !append_assoc. eauto.
Qed.

(** A query logged through [capture_stack] is printable at verbosity
    0 and 1: the userland frame was chosen among those with source. *)
Lemma capture_stack_printable verbose stk text :
  verbose <= 1 → printable verbose (capture_stack python_lib_path stk text).
Proof.
  intros Hv. unfold printable, stack_frames.
  destruct (Z.gtb_spec verbose 1) as [?|_]; [lia|]. simpl.
  unfold get_userland_stack_frame.
  destruct (List.find _ _) as [f|] eqn:Hf; [|constructor].
  apply find_some in Hf as [_ Hf]. apply andb_true_iff in Hf as [Hf _].
  by repeat constructor.
Qed.

(** The log after a block is a tail of the old log followed by the
    statements of the block. *)
Lemma log_extend_drop (queries_log issued : list Query) :
  ∃ j, log_extend queries_log issued = drop j (queries_log ++ issued)%list.
Proof.
  revert queries_log. induction issued as [|q issued IH]; intros queries_log.
  - exists O. by rewrite app_nil_r.
  - unfold log_extend in *. simpl.
    destruct (IH (log_append queries_log q)) as [j ->].
    unfold log_append. simpl.
    set (i := (length (queries_log ++ [q]) - queries_limit)%nat).
    exists (i + j)%nat.
    assert (Hi : (i <= length (queries_log ++ [q])%list)%nat) by lia.
    replace (queries_log ++ q :: issued)%list
      with ((queries_log ++ [q]) ++ issued)%list by (by rewrite <- app_assoc).
    rewrite <- drop_drop. f_equal. symmetry. apply drop_app_le, Hi.
Qed.

(** While the log has room for them, nothing is pushed out. *)
Lemma log_extend_room (queries_log issued : list Query) :
  (length queries_log + length issued <= queries_limit)%nat →
  log_extend queries_log issued = (queries_log ++ issued)%list.
Proof.
  revert queries_log. induction issued as [|q issued IH]; intros queries_log Hlen.
  - by rewrite app_nil_r.
  - unfold log_extend in *. simpl in *.
    assert (Hq : log_append queries_log q = (queries_log ++ [q])%list).
    { unfold log_append. simpl.
      replace (length (queries_log ++ [q]) - queries_limit)%nat with O; [done|].
      rewrite length_app. simpl. lia. }
    rewrite Hq, IH, <- app_assoc; [done|]. rewrite length_app. simpl. lia.
Qed.

(** What is captured is a tail of what the block issued, and all of it
    while the log has room. *)
Lemma captured_suffix (queries_log issued : list Query) :
  ∃ j, captured_queries (length queries_log) (log_extend queries_log issued)
       = drop j issued.
Proof.
  destruct (log_extend_drop queries_log issued) as [j ->].
  exists j. unfold captured_queries.
  rewrite drop_drop, Nat.add_comm, <- drop_drop. by rewrite drop_app_length.
Qed.

Lemma captured_issued (queries_log issued : list Query) :
  (length queries_log + length issued <= queries_limit)%nat →
  captured_queries (length queries_log) (log_extend queries_log issued) = issued.
Proof.
  intros H. rewrite log_extend_room by done.
  unfold captured_queries. by rewrite drop_app_length.
Qed.

(** A block that raises never reaches the comparison. *)
Lemma raising_block_propagates verbose expected_counts block queries_log e :
  raises block = Some e →
  (_assert_num_queries repr_dict str_int rstrip sub_literals
     verbose expected_counts block queries_log).1 = Raised e.
Proof. intros H. unfold _assert_num_queries. by rewrite H. Qed.

(** When the frames the message prints have a line of source, the
    assertion on a block that returns passes exactly when the expected
    mapping, a dict, is the histogram of the captured statements, and
    otherwise fails with a message that starts with the expected and
    the actual counts. *)
Lemma assert_num_queries_with_source
    verbose (expected_counts : dict) block queries_log :
  NoDup (keys expected_counts) →
  raises block = None →
  let captured :=
    captured_queries (length queries_log) (log_extend queries_log (issued block)) in
  Forall (printable verbose) captured →
  let result :=
    (_assert_num_queries repr_dict str_int rstrip sub_literals
       verbose expected_counts block queries_log).1 in
  (result = Passed ↔
     ∀ t, dict_get t expected_counts = histogram captured t)
  ∧ (result ≠ Passed →
     ∃ actual rest,
       (∀ t, dict_get t actual = histogram captured t)
       ∧ result = Failed ("Unexpected queries: expected "
                          ++ repr_dict expected_counts
                          ++ ", got " ++ repr_dict actual ++ rest)).
Proof.
  intros Hnd Hret captured Hpr result. subst result.
  unfold _assert_num_queries. rewrite Hret. simpl fst. fold captured.
  unfold compare_counts.
  pose proof (dict_eqb_lookup expected_counts (count_queries captured)
                Hnd (count_queries_NoDup _)) as Heq.
  destruct (dict_eqb expected_counts (count_queries captured)) eqn:Hb;
    simpl negb; cbv iota.
  - split; [|done]. split; [|done]. intros _ t.
    rewrite <- count_queries_histogram. by apply Heq.
  - assert (Hne : ¬ ∀ t, dict_get t expected_counts = histogram captured t).
    { intros H. assert (false = true); [|done]. apply Heq. intros t.
      by rewrite count_queries_histogram. }
    split.
    + split; [|done]. intros H. exfalso.
      destruct (verbose >? 0); [|done].
      by destruct (queries_text _ _ _ _ _ _).
    + intros _. exists (count_queries captured).
      destruct (verbose >? 0).
      * destruct (queries_text_inr verbose captured
                    (headline repr_dict expected_counts (count_queries captured)
                     ++ nl ++ nl ++ "Queries:" ++ nl ++ "========" ++ nl ++ nl) Hpr)
          as [t ->].
        eexists. split; [apply count_queries_histogram|].
        unfold headline. rewrite !append_assoc. reflexivity.
      * eexists. split; [apply count_queries_histogram|].
        unfold headline. rewrite !append_assoc. reflexivity.
Qed.

End Assertion.

Example query_type_select :
  query_type (plain "SELECT a FROM t WHERE b = 'x y'") = "select".
Proof. reflexivity. Qed.

Example query_type_executemany :
  query_type (plain "3 times: INSERT INTO t VALUES (%s)") = "3".
Proof. reflexivity. Qed.

Example count_queries_example :
  count_queries
    [plain "SELECT 1"; plain "SAVEPOINT s1"; plain "UPDATE t SET a = 1";
     plain "select 2"; plain "RELEASE SAVEPOINT s1"; plain "SHOW x"; plain "SET y"]
  = [("select", 2); ("update", 1)].
Proof. reflexivity. Qed.

(** Expecting a type zero times is not the same mapping as leaving it
    out. *)
Example expected_zero_fails :
  compare_counts example_repr_dict example_str_int id id 0 [("select", 0)] []
  = Failed "Unexpected queries: expected select, got  (add -v option to show queries, or -v -v to show queries with full stack trace)".
Proof. reflexivity. Qed.

Example assert_num_queries_with_source_example :
  let block := {| issued := [plain "SELECT 1"; plain "SAVEPOINT s1"; plain "select 2"];
                  raises := None |} in
  (_assert_num_queries example_repr_dict example_str_int id id
     2 [("select", 2)] block [plain "DELETE FROM t"]).1 = Passed
  ∧ (_assert_num_queries example_repr_dict example_str_int id id
       0 [("select", 1)] block [plain "DELETE FROM t"]).1
    = Failed "Unexpected queries: expected select, got select (add -v option to show queries, or -v -v to show queries with full stack trace)".
Proof. vm_compute. done. Qed.

(** C5. At verbosity 2 the message prints every frame of the recorded
    stack. A block issues one statement through the tracing cursor,
    from a stack one frame of which has no source; the expected mapping
    is empty, so the counts do not match. The assertion ends in a
    [TypeError] from [stack_frame.code_context[0]], not in a failure
    with the message of expected and actual counts; at verbosity 1 the
    same block fails with that message. *)
Theorem assert_num_queries_raises_without_source :
  let block :=
    traced_block "/usr/lib/python3"
      [((example_stack ++ [sourceless_frame])%list, "SELECT 1")] None in
  count_queries (issued block) = [("select", 1)]
  ∧ (_assert_num_queries example_repr_dict example_str_int id id 2 [] block []).1
    = Raised (Exn "TypeError")
  ∧ ∃ rest,
      (_assert_num_queries example_repr_dict example_str_int id id 1 [] block []).1
      = Failed ("Unexpected queries: expected , got select" ++ rest).
Proof.
  vm_compute. split; [done|]. split; [done|]. eexists. reflexivity.
Qed.

End QueryCountProps.

(** ** The session-aware test client *)

Module UserClientProps.
Import Py UserClient.

Section Request.

Variable User : Type.
Variable Args : Type.
Variable Response : Type.
Variable session_key : string.
Variable new_session : Client -> string.
Variable login : User -> string -> string.
Variable cookie_data : list (string * string).
Variable handler : Args -> Client -> exn + (Response * list (string * Morsel)).

Abbreviation force_login := (force_login User session_key new_session login cookie_data).
Abbreviation super_request := (super_request Args Response handler).
Abbreviation request :=
  (request User Args Response session_key new_session login cookie_data handler).

(** New cookies of a response are new objects: the objects already in
    the heap stay as they are. *)
Lemma update_heap response_cookies c r :
  (r < length (heap c))%nat →
  heap (update response_cookies c) !! r = heap c !! r.
Proof.
  revert c. induction response_cookies as [|[key m] rest IH]; intros c Hr; simpl.
  - done.
  - rewrite IH; simpl.
    + by rewrite lookup_app_l.
    + rewrite length_app. lia.
Qed.

Lemma super_request_heap args c r :
  (r < length (heap c))%nat →
  heap (super_request args c).2 !! r = heap c !! r.
Proof.
  intros Hr. unfold UserClient.super_request.
  destruct (handler args c) as [e|[response response_cookies]]; simpl; [done|].
  by apply update_heap.
Qed.

(** Logging in on a client that has a session cookie changes the
    [Morsel] of that cookie in place. *)
Lemma force_login_in_place u c r m :
  cookies c !! session_key = Some r →
  heap c !! r = Some m →
  cookies (force_login u c) = cookies c
  ∧ length (heap (force_login u c)) = length (heap c)
  ∧ heap (force_login u c) !! r
    = Some (Morsel_update cookie_data (Morsel_set (login u (value m)) m)).
Proof.
  intros Hc Hm.
  assert (Hv : cookie_value session_key c = Some (value m)).
  { unfold cookie_value, cookie. rewrite Hc. simpl. by rewrite Hm. }
  unfold UserClient.force_login, session. rewrite Hv.
  unfold setitem_str. rewrite Hc. simpl. rewrite Hc.
  split; [done|]. simpl. split.
  - by rewrite !length_alter.
  - rewrite !list_lookup_alter_eq, Hm. done.
Qed.

(** With a session cookie in the jar before the call, the reference
    the [finally] clause puts back is the object [force_login] wrote
    to: the cookie after the call carries the session of [as_user],
    whether the request returned or raised. *)
Lemma request_previous_session_aliased u args c r m :
  cookies c !! session_key = Some r →
  heap c !! r = Some m →
  cookie session_key (request (Some u) args c).2
  = Some (Morsel_update cookie_data (Morsel_set (login u (value m)) m)).
Proof.
  intros Hc Hm.
  destruct (force_login_in_place u c r m Hc Hm) as (Hj & Hlen & Hr).
  unfold UserClient.request. rewrite Hc.
  pose proof (super_request_heap args (force_login u c) r) as Hs.
  destruct (super_request args (force_login u c)) as [result c2]. simpl in *.
  unfold cookie, setitem_morsel. simpl. rewrite lookup_insert_eq. simpl.
  rewrite Hs, Hr; [done|]. rewrite Hlen. by eapply lookup_lt_Some.
Qed.

(** X8. With no session cookie in the jar before the call, there is
    none after it, whether the request returned or raised. *)
Lemma request_no_previous_session u args c :
  cookies c !! session_key = None →
  cookies (request (Some u) args c).2 !! session_key = None.
Proof.
  intros Hc. unfold UserClient.request. rewrite Hc.
  destruct (super_request args (force_login u c)) as [result c2].
  unfold pop. destruct (cookies c2 !! session_key) eqn:H2; simpl; [|done].
  apply lookup_delete_eq.
Qed.

(** Without [as_user] the call is the plain request of the client. *)
Lemma request_plain args c : request None args c = super_request args c.
Proof. reflexivity. Qed.

End Request.

(** C6. A client that holds the session of alice makes one request as
    bob, and the request returns: the session cookie, which held the
    session of alice before the call, holds the session of bob after
    it. *)
Theorem request_as_user_overwrites_session :
  let before := logged_in_client in
  let after :=
    (request string unit unit "sessionid" (fun _ => "anonymous") example_login
       [("path", "/")] example_handler (Some "bob") tt before).2 in
  cookie_value "sessionid" before = Some "session-of-alice"
  ∧ cookie_value "sessionid" after = Some "session-of-bob".
Proof. vm_compute. done. Qed.

(** C10. The same call with a request that raises: the exception
    reaches the caller after the [finally] clause has run, and the
    session cookie holds the session of bob, not that of alice. *)
Theorem request_as_user_overwrites_session_on_exception :
  let before := logged_in_client in
  let '(result, after) :=
    request string unit unit "sessionid" (fun _ => "anonymous") example_login
      [("path", "/")] example_raising_handler (Some "bob") tt before in
  result = inl (Exn "ValueError")
  ∧ cookie_value "sessionid" before = Some "session-of-alice"
  ∧ cookie_value "sessionid" after = Some "session-of-bob".
Proof. vm_compute. done. Qed.

(** On a client with no session the cookie is gone after the call. *)
Example request_as_user_fresh_client :
  cookie_value "sessionid"
    (request string unit unit "sessionid" (fun _ => "anonymous") example_login
       [("path", "/")] example_handler (Some "bob") tt fresh_client).2 = None.
Proof. vm_compute. done. Qed.

End UserClientProps.

(** ** The outbound HTTP mock *)

Module HttpMockProps.
Import Py HttpMock.

Example iter_content_default :
  iter_content MockResponse_new 10 (Some 1)
  = Some (map (fun b => [b]) some_file, None).
Proof. reflexivity. Qed.

Example iter_content_four :
  iter_content MockResponse_new 10 (Some 4)
  = Some (map list_byte_of_string ["Some"; " fil"; "e"], None).
Proof. reflexivity. Qed.

Example iter_content_zero :
  iter_content MockResponse_new 10 (Some 0) = Some ([], None).
Proof. reflexivity. Qed.

Example iter_content_overflow :
  iter_content MockResponse_new 10 (Some (2 ^ 63))
  = Some ([], Some (Exn "OverflowError")).
Proof. reflexivity. Qed.

(** A read with a size in range gives a chunk and a rest that make up
    the file; the chunk is empty only when the file is, unless the
    size is zero. *)
Lemma read_fits chunk_size file :
  fits_ssize_t chunk_size →
  ∃ chunk file', read chunk_size file = inr (chunk, file')
                 ∧ (chunk ++ file')%list = file
                 ∧ (chunk_size ≠ Some 0 → chunk = [] → file = []).
Proof.
  intros Hfit. unfold read. destruct chunk_size as [n|].
  - simpl in Hfit. unfold ssize_t_min, ssize_t_max in *.
    destruct (Z.ltb_spec n (- 2 ^ 63)); [lia|].
    destruct (Z.ltb_spec (2 ^ 63 - 1) n); [lia|]. simpl.
    destruct (Z.ltb_spec n 0).
    + eexists _, _. split; [done|]. by rewrite app_nil_r.
    + eexists _, _. split; [done|]. split; [apply take_drop|].
      intros Hn. assert (Hpos : (0 < Z.to_nat n)%nat)
        by (assert (n ≠ 0) by congruence; lia).
      destruct file as [|b file]; [done|].
      destruct (Z.to_nat n); [lia | done].
  - eexists _, _. split; [done|]. by rewrite app_nil_r.
Qed.

(** The loop of [iter_content] ends without an exception, and the
    chunks it yields are the file, cut in pieces none of which is
    empty. *)
Lemma iter_content_loop_concat fuel chunk_size file :
  chunk_size ≠ Some 0 →
  fits_ssize_t chunk_size →
  (length file < fuel)%nat →
  ∃ chunks, iter_content_loop fuel chunk_size file = Some (chunks, None)
            ∧ concat chunks = file
            ∧ Forall (fun c => c ≠ []) chunks.
Proof.
  intros Hsize Hfit. revert file.
  induction fuel as [|fuel IH]; intros file Hlen; [lia|].
  simpl.
  destruct (read_fits chunk_size file Hfit) as (chunk & file' & -> & Happ & Hnil).
  destruct chunk as [|b chunk].
  - exists []. rewrite Hnil by done. by repeat split.
  - destruct (IH file') as (chunks & -> & Hc & Hne).
    { rewrite <- Happ in Hlen. rewrite length_app in Hlen. simpl in Hlen. lia. }
    exists ((b :: chunk) :: chunks). simpl. repeat split.
    + by rewrite Hc.
    + by constructor.
Qed.

(** Lookups in a module after some of its names were bound again. *)
Ltac lookup_names :=
  repeat first [ rewrite lookup_insert_eq
               | rewrite lookup_insert_ne by (discriminate || congruence) ].

Lemma setattr_bound name v (mp : MonkeyPatch) (m : module) old :
  m !! name = Some old →
  setattr name v (mp, m) = inr ((name, old) :: mp, <[name := v]> m).
Proof. intros H. unfold setattr. simpl. by rewrite H. Qed.

Section Calls.

Variable Args : Type.
Variable RealResponse : Type.
Variable network : string -> Args -> RealResponse.

(** C9. On a module that has the four verb functions, the fixture
    binds get, post, patch and delete to the stub: a call of any of
    them, whatever its arguments, returns a [MockResponse] and does no
    network I/O; the response has status code 200, the fixed JSON body
    and, for every chunk size but zero that [BytesIO.read] accepts (the
    default of 1 among them), the bytes of the canned file as its
    content; and the undo that ends the test puts the module back as it
    was. *)
Theorem mock_response_stubs_verbs (m : module) :
  (∀ verb, verb ∈ mocked_verbs → is_Some (m !! verb)) →
  ∃ mp m',
    mock_response ([], m) = inr (mp, m')
    ∧ (∀ verb (args : Args), verb ∈ mocked_verbs →
         call_attr Args RealResponse network m' verb args
         = inr (Mock MockResponse_new, []))
    ∧ status_code MockResponse_new = 200
    ∧ json MockResponse_new = [("mock_key", "mock_response")]
    ∧ (∀ chunk_size, chunk_size ≠ Some 0 → fits_ssize_t chunk_size →
         ∃ chunks, iter_content MockResponse_new 10 chunk_size = Some (chunks, None)
                   ∧ concat chunks = list_byte_of_string "Some file")
    ∧ (∀ name, name ∉ mocked_verbs → m' !! name = m !! name)
    ∧ (undo (mp, m')).2 = m.
Proof.
  intros Hm.
  destruct (Hm "get") as [og Hg]; [set_solver|].
  destruct (Hm "post") as [op Hp]; [set_solver|].
  destruct (Hm "patch") as [oa Ha]; [set_solver|].
  destruct (Hm "delete") as [od Hd]; [set_solver|].
  eexists _, _. split.
  { unfold mock_response.
    rewrite (setattr_bound _ _ _ _ og) by done. simpl.
    rewrite (setattr_bound _ _ _ _ op) by by lookup_names. simpl.
    rewrite (setattr_bound _ _ _ _ oa) by by lookup_names. simpl.
    rewrite (setattr_bound _ _ _ _ od) by by lookup_names.
    reflexivity. }
  split.
  { intros verb args Hv. unfold call_attr, mocked_verbs in *.
    repeat (apply elem_of_cons in Hv as [->|Hv]); [..|by apply elem_of_nil in Hv];
      by lookup_names. }
  split; [done|]. split; [done|]. split.
  { intros chunk_size Hs Hfit.
    destruct (iter_content_loop_concat 10 chunk_size some_file Hs Hfit)
      as (chunks & H1 & H2 & _).
    - simpl. lia.
    - exists chunks. by split. }
  split.
  { intros name Hn. unfold mocked_verbs in Hn.
    rewrite !not_elem_of_cons in Hn. destruct Hn as (? & ? & ? & ? & _).
    by lookup_names. }
  unfold undo. simpl. apply map_eq. intros i.
  destruct (decide (i = "get")) as [->|]; [by lookup_names|].
  destruct (decide (i = "post")) as [->|]; [by lookup_names|].
  destruct (decide (i = "patch")) as [->|]; [by lookup_names|].
  destruct (decide (i = "delete")) as [->|]; by lookup_names.
Qed.

(** A verb the fixture does not replace still reaches the network. *)
Lemma put_is_not_mocked (args : Args) :
  ∃ mp m', mock_response ([], requests_module) = inr (mp, m')
    ∧ call_attr Args RealResponse network m' "put" args
      = inr (Real (network "put" args), [NetworkIO "put" args]).
Proof. eexists _, _. split; [reflexivity|]. reflexivity. Qed.

End Calls.

Lemma mock_response_stubs_verbs_witness :
  ∃ mp m',
    mock_response ([], requests_module) = inr (mp, m')
    ∧ (∀ verb (args : unit), verb ∈ mocked_verbs →
         call_attr unit unit (fun _ _ => tt) m' verb args
         = inr (Mock MockResponse_new, []))
    ∧ status_code MockResponse_new = 200
    ∧ json MockResponse_new = [("mock_key", "mock_response")]
    ∧ (∀ chunk_size, chunk_size ≠ Some 0 → fits_ssize_t chunk_size →
         ∃ chunks, iter_content MockResponse_new 10 chunk_size = Some (chunks, None)
                   ∧ concat chunks = list_byte_of_string "Some file")
    ∧ (∀ name, name ∉ mocked_verbs → m' !! name = requests_module !! name)
    ∧ (undo (mp, m')).2 = requests_module.
Proof.
  apply (mock_response_stubs_verbs unit unit (fun _ _ => tt) requests_module).
  intros verb Hv. unfold mocked_verbs in Hv.
  repeat (apply elem_of_cons in Hv as [->|Hv]); [..|by apply elem_of_nil in Hv];
    vm_compute; eauto.
Defined.

End HttpMockProps.

(** ** The account views *)

Module ViewsProps.
Import Py Views.

Lemma filter_none {A} (P : A → Prop) `{∀ x, Decision (P x)} (l : list A) :
  (∀ x, x ∈ l → ¬ P x) → filter P l = [].
Proof.
  induction l as [|x l IH]; intros Hl; [done|].
  rewrite filter_cons, decide_False by (apply Hl; left).
  apply IH. intros y Hy. apply Hl. by right.
Qed.

Section Handlers.

Variable success_url : string.
Variable login_url : string.
Variable reset_form_errors : QueryDict -> list string.
Variable signup_form_errors : QueryDict -> list User -> list string.
Variable user_form_errors : QueryDict -> User -> list User -> list string.
Variable generate_key : nat -> string.

Abbreviation sign_up := (sign_up signup_form_errors generate_key).
Abbreviation reset_password := (reset_password success_url reset_form_errors).
Abbreviation reset_token := (reset_token generate_key).
Abbreviation account := (account login_url user_form_errors).
Abbreviation SignupForm := (SignupForm signup_form_errors).
Abbreviation UserForm := (UserForm user_form_errors).
Abbreviation get_new_token := (get_new_token generate_key).
Abbreviation reachable :=
  (reachable success_url login_url reset_form_errors signup_form_errors
     user_form_errors generate_key).

(** *** Sign-up and account edit *)

(** C7. A POST to sign-up or to account edit whose form does not
    validate changes nothing in the tables, the outbox or the random
    source, and the response is the page of the form, with the form
    as submitted. For account edit the form is the one bound to the
    user of the request. *)
Theorem invalid_form_not_saved request w :
  method request = POST →
  (is_valid (SignupForm request w) = false →
     sign_up request w
     = (render "registration/sign_up.html" (Some (SignupForm request w)), w))
  ∧ (∀ u, request_user request w = Some u →
       is_valid (UserForm request u w) = false →
       account request w
       = (render "account.html" (Some (UserForm request u w)), w)).
Proof.
  intros Hm. split.
  - intros Hv. unfold Views.sign_up. rewrite Hm, Hv.
    by destruct (data _).
  - intros u Hu Hv. unfold Views.account, login_required, account_body.
    rewrite Hu, Hm, Hv. by destruct (data _).
Qed.

(** A valid account form is saved. *)
Lemma account_valid_saved request w u d :
  method request = POST →
  request_user request w = Some u →
  data (UserForm request u w) = Some d →
  is_valid (UserForm request u w) = true →
  (account request w).2 = UserForm_save d u w.
Proof.
  intros Hm Hu Hd Hv. unfold Views.account, login_required, account_body.
  by rewrite Hu, Hm, Hd, Hv.
Qed.

(** *** Token reset *)

Lemma auth_token_get_new_token p w :
  auth_token p (get_new_token p w).2 = Some (get_new_token p w).1.
Proof.
  unfold auth_token, Views.get_new_token, Token_create, Token_delete. simpl.
  rewrite filter_app, list_filter_filter, filter_cons, filter_nil.
  simpl. rewrite decide_True by done.
  rewrite filter_none; [done|]. intros t _ [? ?]. done.
Qed.

Lemma reset_token_authenticated_post request w u :
  request_user request w = Some u →
  method request = POST →
  reset_token request w
  = (ApiResponse 200 [("token", key (get_new_token (pk u) w).1)],
     (get_new_token (pk u) w).2).
Proof.
  intros Hu Hm. unfold Views.reset_token, api_view. rewrite Hu, Hm.
  rewrite bool_decide_true by (by apply list_elem_of_singleton). reflexivity.
Qed.


(** C8, as amended. An authenticated POST answers 200 with a body
    that holds a token; a request with no authenticated user answers
    401, whatever its method; an authenticated GET answers 405. *)
Theorem reset_token_statuses request w :
  (∀ u, request_user request w = Some u → method request = POST →
        ∃ k, (reset_token request w).1 = ApiResponse 200 [("token", k)])
  ∧ (request_user request w = None →
        status_code (reset_token request w).1 = 401)
  ∧ (∀ u, request_user request w = Some u → method request = GET →
        status_code (reset_token request w).1 = 405).
Proof.
  repeat split.
  - intros u Hu Hm. rewrite (reset_token_authenticated_post _ _ u) by done. eauto.
  - intros Hu. unfold Views.reset_token, api_view. by rewrite Hu.
  - intros u Hu Hm. unfold Views.reset_token, api_view. rewrite Hu, Hm.
    rewrite bool_decide_false by (rewrite list_elem_of_singleton; discriminate).
    by rewrite bool_decide_false.
Qed.

(** *** Password reset *)

Lemma objects_get_Found a table u :
  objects_get (Some a) table = Found u →
  filter (fun x => email x = a) table = [u] ∧ email u = a ∧ u ∈ table.
Proof.
  unfold objects_get. destruct (filter _ table) as [|x [|y l]] eqn:Hf; try done.
  intros [= ->]. split; [done|].
  assert (Hin : u ∈ filter (fun x => email x = a) table) by (rewrite Hf; left).
  by apply list_elem_of_filter in Hin.
Qed.

Lemma objects_get_DoesNotExist a table :
  objects_get (Some a) table = DoesNotExist →
  filter (fun x => email x = a) table = [].
Proof.
  unfold objects_get. by destruct (filter _ table) as [|x [|y l]].
Qed.

Lemma filter_conj_of {A} (P Q : A → Prop) `{∀ x, Decision (P x)}
    `{∀ x, Decision (Q x)} (l : list A) :
  filter (fun x => P x ∧ Q x) l = filter Q (filter P l).
Proof.
  rewrite list_filter_filter. apply list_filter_iff. intros x. tauto.
Qed.

(** Distinct addresses: a lookup by address finds at most one row. *)
Lemma distinct_filter a (table : list User) :
  NoDup (email <$> table) →
  (length (filter (fun x => email x = a) table) <= 1)%nat.
Proof.
  induction table as [|u table IH]; [intros _; simpl; lia|].
  rewrite fmap_cons. intros Hnd. apply NoDup_cons in Hnd as [Hu Hnd].
  rewrite filter_cons. destruct (decide (email u = a)) as [<-|Hne]; [|auto].
  rewrite filter_none; [done|]. intros x Hx He. apply Hu.
  rewrite <- He. by apply list_elem_of_fmap_2.
Qed.

Lemma distinct_addresses_get a w :
  distinct_addresses w →
  objects_get (Some a) (users w) ≠ MultipleObjectsReturned.
Proof.
  intros Hnd. pose proof (distinct_filter a (users w) Hnd) as Hlen.
  unfold objects_get.
  destruct (filter _ (users w)) as [|x [|y l]]; try done. simpl in Hlen. lia.
Qed.

(** The response of Django's view does not read the tables. *)
Lemma OurPasswordResetView_response request w1 w2 :
  (OurPasswordResetView success_url reset_form_errors request w1).1
  = (OurPasswordResetView success_url reset_form_errors request w2).1.
Proof.
  unfold OurPasswordResetView.
  destruct (method request); try done; by destruct (is_valid _).
Qed.

Lemma delegate_response {E} (p : Response * World) :
  (let '(r, w') := p in (@inr E Response r, w')).1 = inr p.1.
Proof. by destruct p. Qed.

Lemma delegate_world {E} (p : Response * World) :
  (let '(r, w') := p in (@inr E Response r, w')).2 = p.2.
Proof. by destruct p. Qed.

(** With clean and distinct addresses on record, the response to a
    POST is the one Django's view gives on an empty table. *)
Lemma reset_password_response request w :
  method request = POST →
  distinct_addresses w →
  clean_addresses reset_form_errors w →
  (reset_password request w).1
  = inr (OurPasswordResetView success_url reset_form_errors request initial).1.
Proof.
  intros Hm Hd Hc. unfold Views.reset_password. rewrite Hm.
  destruct (QueryDict_get "email" (POST_of request)) as [a|] eqn:Ha.
  - pose proof (distinct_addresses_get a w Hd) as Hmulti.
    destruct (objects_get (Some a) (users w)) as [u| |] eqn:Hget; [| |done].
    + apply objects_get_Found in Hget as (_ & Hu & Hin).
      destruct (email_confirmed u); simpl negb; cbv iota.
      * rewrite delegate_response.
        by rewrite (OurPasswordResetView_response request w initial).
      * unfold OurPasswordResetView. rewrite Hm. unfold is_valid. simpl.
        rewrite (Hc u (POST_of request) Hin) by by rewrite Hu. done.
    + rewrite delegate_response.
      by rewrite (OurPasswordResetView_response request w initial).
  - simpl objects_get. cbv iota. rewrite delegate_response.
    by rewrite (OurPasswordResetView_response request w initial).
Qed.


Lemma sent_add_mail m w : sent w (add_mail m w) = m.
Proof. unfold sent, add_mail. simpl. by rewrite drop_app_length. Qed.

Lemma sent_same w : sent w w = [].
Proof. unfold sent. by rewrite drop_all. Qed.

(** What Django's view sends on a POST with a valid form. *)
Lemma OurPasswordResetView_valid_sent request w a :
  method request = POST →
  QueryDict_get "email" (POST_of request) = Some a →
  reset_form_errors (POST_of request) = [] →
  sent w (OurPasswordResetView success_url reset_form_errors request w).2
  = (fun u => PasswordResetEmail (email u))
      <$> filter (fun u => is_active u = true)
            (filter (fun u => email u = a) (users w)).
Proof.
  intros Hm Ha Hv. unfold OurPasswordResetView. rewrite Hm.
  unfold is_valid. simpl. rewrite Hv. simpl.
  unfold PasswordResetForm_save. rewrite Ha, sent_add_mail.
  by rewrite filter_conj_of.
Qed.

Lemma OurPasswordResetView_invalid_sent request w :
  method request = POST →
  reset_form_errors (POST_of request) ≠ [] →
  sent w (OurPasswordResetView success_url reset_form_errors request w).2 = [].
Proof.
  intros Hm Hv. unfold OurPasswordResetView. rewrite Hm.
  unfold is_valid. simpl.
  destruct (reset_form_errors (POST_of request)); [done|]. apply sent_same.
Qed.


(** *** One token for each user *)

Lemma token_invariant_one_token_each w :
  token_invariant w → one_token_each w.
Proof.
  intros [H _] u Hu. apply H. by apply list_elem_of_fmap_2.
Qed.

(** A step that keeps the primary keys and the token table keeps the
    invariant. *)
Lemma token_invariant_same w w' :
  pk <$> users w' = pk <$> users w →
  tokens w' = tokens w →
  token_invariant w → token_invariant w'.
Proof.
  intros Hu Ht [H1 H2]. split.
  - intros p Hp. unfold token_count. rewrite Ht. apply H1. by rewrite <- Hu.
  - intros t Hin. rewrite Hu. apply H2. by rewrite <- Ht.
Qed.

Lemma new_pk_fresh (table : list User) p :
  p ∈ pk <$> table → (p < new_pk table)%nat.
Proof.
  unfold new_pk. induction table as [|u table IH].
  - intros H. by apply elem_of_nil in H.
  - rewrite fmap_cons. simpl foldr.
    intros [->|H]%elem_of_cons; [lia|]. specialize (IH H). lia.
Qed.

Lemma token_count_create p q w :
  token_count p (Token_create generate_key q w).2
  = (token_count p w + (if decide (q = p) then 1 else 0))%nat.
Proof.
  unfold token_count, Token_create. simpl.
  rewrite filter_app, length_app, filter_cons, filter_nil. simpl.
  by destruct (decide (q = p)).
Qed.

Lemma token_count_delete p q w :
  token_count p (Token_delete q w)
  = if decide (q = p) then 0%nat else token_count p w.
Proof.
  unfold token_count, Token_delete. simpl. rewrite list_filter_filter.
  destruct (decide (q = p)) as [->|Hne].
  - rewrite filter_none; [done|]. by intros t _ [? ?].
  - f_equal. apply list_filter_iff. intros t. split; [tauto|].
    intros Ht. split; [done | congruence].
Qed.

(** Between the two halves of [get_new_token] the user has no token;
    a caller of [get_new_token] sees the states before and after. *)
Lemma token_count_between p w : token_count p (Token_delete p w) = 0%nat.
Proof. rewrite token_count_delete. by rewrite decide_True. Qed.

Lemma get_new_token_invariant p w :
  p ∈ pk <$> users w →
  token_invariant w → token_invariant (get_new_token p w).2.
Proof.
  intros Hp [H1 H2]. split.
  - intros q Hq. unfold Views.get_new_token.
    rewrite token_count_create, token_count_delete.
    destruct (decide (p = q)); [done|]. rewrite H1 by done. lia.
  - intros t. unfold Views.get_new_token, Token_create, Token_delete. simpl.
    intros [Ht| ->%list_elem_of_singleton]%elem_of_app.
    + apply list_elem_of_filter in Ht as [_ Ht]. by apply H2.
    + done.
Qed.

Lemma SignupForm_save_tables d w :
  ∃ u t, pk u = new_pk (users w) ∧ user_id t = new_pk (users w)
         ∧ users (SignupForm_save generate_key d w) = (users w ++ [u])%list
         ∧ tokens (SignupForm_save generate_key d w) = (tokens w ++ [t])%list.
Proof. eexists _, _. repeat split; reflexivity. Qed.

Lemma SignupForm_save_invariant d w :
  token_invariant w →
  token_invariant (SignupForm_save generate_key d w).
Proof.
  intros [H1 H2].
  destruct (SignupForm_save_tables d w) as (u & t & Hu & Ht & Husers & Htokens).
  assert (Hfresh : filter (fun t => user_id t = new_pk (users w)) (tokens w) = []).
  { rewrite filter_none; [done|].
    intros t' Ht' He. apply H2, new_pk_fresh in Ht'. lia. }
  split.
  - intros p. unfold token_count. rewrite Husers, Htokens, fmap_app.
    rewrite filter_app, length_app, filter_cons, filter_nil. simpl.
    intros [Hp| ->%list_elem_of_singleton]%elem_of_app.
    + apply new_pk_fresh in Hp as Hlt.
      rewrite decide_False by lia. specialize (H1 p Hp).
      unfold token_count in H1. simpl. lia.
    + rewrite decide_True by congruence. rewrite Hu, Hfresh. done.
  - intros t'. rewrite Husers, Htokens, fmap_app.
    intros [Ht'| ->%list_elem_of_singleton]%elem_of_app.
    + apply elem_of_app. left. by apply H2.
    + apply elem_of_app. right. simpl. rewrite Ht, Hu. left.
Qed.

Lemma sign_up_invariant request w :
  token_invariant w → token_invariant (sign_up request w).2.
Proof.
  intros H. unfold Views.sign_up.
  destruct (method request); try done.
  destruct (data _); [|done].
  destruct (is_valid _); [|done]. by apply SignupForm_save_invariant.
Qed.

Lemma reset_password_tables request w :
  users (reset_password request w).2 = users w
  ∧ tokens (reset_password request w).2 = tokens w.
Proof.
  assert (Hview : ∀ E,
    users (let '(r, w') := OurPasswordResetView success_url reset_form_errors
                             request w in (@inr E Response r, w')).2 = users w
    ∧ tokens (let '(r, w') := OurPasswordResetView success_url reset_form_errors
                                request w in (@inr E Response r, w')).2 = tokens w).
  { intros E. rewrite delegate_world. unfold OurPasswordResetView.
    destruct (method request); try done;
      (destruct (is_valid _); [|done]);
      unfold PasswordResetForm_save; by destruct (QueryDict_get _ _). }
  unfold Views.reset_password.
  destruct (method request); try apply Hview.
  destruct (objects_get _ _) as [u| |]; try done; try apply Hview.
  destruct (negb _); [done | apply Hview].
Qed.

Lemma request_user_elem request w u :
  request_user request w = Some u → u ∈ users w.
Proof.
  unfold request_user. destruct (user request) as [p|]; [|done]. simpl.
  intros H. apply find_some in H as [H _]. by apply list_elem_of_In.
Qed.

Lemma reset_token_invariant request w :
  token_invariant w → token_invariant (reset_token request w).2.
Proof.
  intros H. unfold Views.reset_token, api_view.
  destruct (request_user request w) as [u|] eqn:Hu; [|done].
  case_bool_decide.
  - unfold reset_token_body.
    destruct (get_new_token (pk u) w) as [t w'] eqn:Hg. simpl.
    change w' with (t, w').2. rewrite <- Hg.
    apply get_new_token_invariant; [|done].
    apply list_elem_of_fmap_2. by eapply request_user_elem.
  - by case_bool_decide.
Qed.

Lemma fmap_pk_update (f : User → User) (table : list User) :
  (∀ x, pk (f x) = pk x) → pk <$> (f <$> table) = pk <$> table.
Proof.
  intros Hf. rewrite <- list_fmap_compose. apply list_fmap_ext.
  intros i x _. apply Hf.
Qed.

Lemma account_invariant request w :
  token_invariant w → token_invariant (account request w).2.
Proof.
  intros H. unfold Views.account, login_required.
  destruct (request_user request w) as [u|]; [|done].
  unfold account_body. cbv zeta. cbn [snd].
  destruct (method request); try done.
  destruct (data (UserForm request u w)); [|done].
  destruct (is_valid (UserForm request u w)); [|done].
  eapply token_invariant_same; [| |done]; [|done].
  unfold UserForm_save. simpl. apply fmap_pk_update.
  intros x. by destruct (Nat.eqb _ _).
Qed.

Lemma set_flags_invariant p a c w :
  token_invariant w → token_invariant (set_flags p a c w).
Proof.
  intros H. eapply token_invariant_same; [| |done]; [|done].
  unfold set_flags. simpl. apply fmap_pk_update.
  intros x. by destruct (Nat.eqb _ _).
Qed.

Lemma reachable_token_invariant w : reachable w → token_invariant w.
Proof.
  induction 1 as [|w w' _ IH Hstep].
  - split; [intros p H; by apply elem_of_nil in H
           | intros t H; by apply elem_of_nil in H].
  - destruct Hstep.
    + by apply sign_up_invariant.
    + destruct (reset_password_tables request w) as [Hu Ht].
      eapply token_invariant_same; [| |done]; [by rewrite Hu | done].
    + by apply reset_token_invariant.
    + by apply account_invariant.
    + by apply set_flags_invariant.
Qed.


End Handlers.

(** *** The properties on the example data *)

Abbreviation ex_reset_password :=
  (reset_password "/password-reset/done/" example_reset_form_errors).
Abbreviation ex_reset_token := (reset_token example_generate_key).
Abbreviation ex_sign_up := (sign_up example_signup_form_errors example_generate_key).
Abbreviation ex_account := (account "/login/" example_user_form_errors).

(** The four states of an address of the docstring of
    [reset_password], and one response. *)
Example reset_password_four_states :
  let request := post [("email", "user@example.com")] None in
  let response table := (ex_reset_password request (example_world table)).1 in
  response [example_user 1 "user@example.com" true true]
  = inr (HttpResponseRedirect "/password-reset/done/")
  ∧ response [example_user 1 "user@example.com" true false]
    = inr (HttpResponseRedirect "/password-reset/done/")
  ∧ response [example_user 1 "user@example.com" false true]
    = inr (HttpResponseRedirect "/password-reset/done/")
  ∧ response [] = inr (HttpResponseRedirect "/password-reset/done/").
Proof. vm_compute. done. Qed.

(** Why the addresses on record have to pass the validation of the
    form: an unconfirmed user recorded under an address the form
    rejects is redirected, where the form is shown again for the same
    address on an empty table. *)
Example reset_password_rejected_address :
  let request := post [("email", EmptyString)] None in
  (ex_reset_password request
     (example_world [example_user 1 EmptyString true false])).1
  = inr (HttpResponseRedirect "/password-reset/done/")
  ∧ (ex_reset_password request (example_world [])).1
    = inr (render "registration/password_reset_form.html"
             (Some {| data := Some [("email", EmptyString)]; instance := None;
                      errors := ["This field is required."] |})).
Proof. vm_compute. done. Qed.

Lemma example_clean_addresses table :
  Forall (fun u => email u ≠ EmptyString) table →
  clean_addresses example_reset_form_errors (example_world table).
Proof.
  intros Hall u d Hu Hd. unfold example_reset_form_errors. rewrite Hd.
  rewrite Forall_forall in Hall. specialize (Hall u Hu).
  by destruct (email u).
Qed.






(** C8, as stated, fails: a GET with no authenticated user is answered
    401, not 405. *)
Lemma reset_token_anonymous_get :
  ¬ (∀ request w,
       method request = GET → status_code (ex_reset_token request w).1 = 405).
Proof.
  intros H.
  specialize (H {| method := GET; body := []; user := None |} initial eq_refl).
  vm_compute in H. discriminate.
Qed.

Lemma reset_token_statuses_witness :
  let w := example_world [example_user 1 "user@example.com" true true] in
  (∃ k, (ex_reset_token (post [] (Some 1%nat)) w).1 = ApiResponse 200 [("token", k)])
  ∧ status_code (ex_reset_token (post [] None) w).1 = 401
  ∧ status_code
      (ex_reset_token {| method := GET; body := []; user := Some 1%nat |} w).1 = 405.
Proof.
  pose (w := example_world [example_user 1 "user@example.com" true true]).
  split; [|split].
  - apply (proj1 (reset_token_statuses example_generate_key
                    (post [] (Some 1%nat)) w)
             (example_user 1 "user@example.com" true true));
      reflexivity.
  - apply (proj1 (proj2 (reset_token_statuses example_generate_key
                           (post [] None) w)));
      reflexivity.
  - apply (proj2 (proj2 (reset_token_statuses example_generate_key
                           {| method := GET; body := []; user := Some 1%nat |} w))
             (example_user 1 "user@example.com" true true));
      reflexivity.
Defined.

Lemma invalid_form_not_saved_witness :
  let w := example_world [example_user 1 "user@example.com" true true] in
  let taken := post [("email", "user@example.com"); ("first_name", "A")] None in
  let blank := post [("email", EmptyString); ("first_name", "New First")] (Some 1%nat) in
  (ex_sign_up taken w).2 = w ∧ (ex_account blank w).2 = w.
Proof.
  intros w taken blank. split.
  - rewrite (proj1 (invalid_form_not_saved "/login/" example_signup_form_errors
                      example_user_form_errors example_generate_key
                      taken w eq_refl));
      reflexivity.
  - rewrite (proj2 (invalid_form_not_saved "/login/" example_signup_form_errors
                      example_user_form_errors example_generate_key
                      blank w eq_refl)
               (example_user 1 "user@example.com" true true));
      reflexivity.
Defined.


(** The sign-up of the docstring: the new user is inactive and
    unconfirmed, has a token, and is sent the confirmation message. *)
Example sign_up_example :
  (ex_sign_up (post [("email", "user@example.edu"); ("first_name", "Test");
                     ("last_name", "User")] None) initial)
  = (render "registration/sign_up_success.html" None,
     {| users := [ {| pk := 1; email := "user@example.edu"; first_name := "Test";
                      last_name := "User"; is_active := false;
                      email_confirmed := false; is_staff := false;
                      is_superuser := false |} ];
        tokens := [ {| key := "k"; user_id := 1 |} ];
        outbox := [ConfirmationEmail "user@example.edu"];
        entropy := 1 |}).
Proof. reflexivity. Qed.

End ViewsProps.

(** ** More on the query-count assertion *)

Module QueryCountMore.
Import Py QueryCount Tracing QueryCountProps.

Lemma find_first {A} (p : A → bool) (l : list A) :
  match List.find p l with
  | Some x => ∃ before after, l = (before ++ x :: after)%list ∧ p x = true
                              ∧ Forall (fun y => p y = false) before
  | None => Forall (fun y => p y = false) l
  end.
Proof.
  induction l as [|a l IH]; simpl; [constructor|].
  destruct (p a) eqn:Ha.
  - exists [], l. by repeat split.
  - destruct (List.find p l) as [x|].
    + destruct IH as (before & after & -> & Hx & Hb).
      exists (a :: before), after. repeat split; [done|]. by constructor.
    + by constructor.
Qed.

(** X1. The userland frame is the first frame, after the two innermost
    ones, that has a source line and whose file is not under the Python
    library; there is none exactly when every such frame is passed
    over. *)
Theorem get_userland_stack_frame_first python_lib_path stk :
  match get_userland_stack_frame python_lib_path stk with
  | Some f =>
      ∃ before after,
        drop 2 stk = (before ++ f :: after)%list
        ∧ truthy_context f = true
        ∧ startswith (filename f) python_lib_path = false
        ∧ Forall (passed_over python_lib_path) before
  | None => Forall (passed_over python_lib_path) (drop 2 stk)
  end.
Proof.
  unfold get_userland_stack_frame.
  pose proof (find_first
    (fun f => truthy_context f && negb (startswith (filename f) python_lib_path))
    (drop 2 stk)) as H.
  assert (Hp : ∀ l, Forall (fun y => truthy_context y
                      && negb (startswith (filename y) python_lib_path) = false) l
                    → Forall (passed_over python_lib_path) l).
  { intros l Hl. eapply Forall_impl; [exact Hl|]. intros y Hy. unfold passed_over.
    apply andb_false_iff in Hy as [Hy|Hy]; [by left|].
    right. by apply negb_false_iff. }
  destruct (List.find _ _) as [f|].
  - destruct H as (before & after & Hd & Hf & Hb).
    apply andb_true_iff in Hf as [Hf1 Hf2]. apply negb_true_iff in Hf2.
    exists before, after. repeat split; auto.
  - auto.
Qed.

Section Assertion.

Variable python_lib_path : string.
Variable repr_dict : dict -> string.
Variable str_int : Z -> string.
Variable rstrip : string -> string.
Variable sub_literals : string -> string.

Abbreviation compare_counts := (compare_counts repr_dict str_int rstrip sub_literals).
Abbreviation _assert_num_queries :=
  (_assert_num_queries repr_dict str_int rstrip sub_literals).

Lemma compare_counts_Passed verbose expected_counts captured :
  compare_counts verbose expected_counts captured = Passed
  ↔ dict_eqb expected_counts (count_queries captured) = true.
Proof.
  unfold QueryCount.compare_counts.
  destruct (dict_eqb _ _); simpl; [done|].
  split; [|done]. destruct (verbose >? 0); [|done].
  by destruct (queries_text _ _ _ _ _ _).
Qed.

Lemma execute_all_log_extend calls queries_log :
  execute_all python_lib_path calls queries_log
  = log_extend queries_log
      (map (fun call => capture_stack python_lib_path call.1 call.2) calls).
Proof.
  revert queries_log. induction calls as [|call calls IH]; intros queries_log; [done|].
  unfold execute_all, log_extend in *. simpl. by rewrite IH.
Qed.

Lemma traced_block_printable verbose calls raises :
  verbose <= 1 →
  Forall (printable verbose) (issued (traced_block python_lib_path calls raises)).
Proof.
  intros Hv. simpl. rewrite execute_all_log_extend.
  destruct (log_extend_drop []
              (map (fun call => capture_stack python_lib_path call.1 call.2) calls))
    as [j ->].
  apply Forall_drop. simpl. apply Forall_forall.
  intros q Hq. apply list_elem_of_In, in_map_iff in Hq as (call & <- & _).
  by apply capture_stack_printable.
Qed.

(** X2. When every statement of a block that returns went through the
    tracing cursor, the assertion at verbosity 0 or 1 ends in a pass or
    in a failure with its message: building the message does not
    raise. *)
Theorem traced_block_message_does_not_raise
    verbose expected_counts calls queries_log :
  verbose <= 1 →
  ∀ e, (_assert_num_queries verbose expected_counts
          (traced_block python_lib_path calls None) queries_log).1 ≠ Raised e.
Proof.
  intros Hv e.
  assert (Hp : Forall (printable verbose)
                 (captured_queries (length queries_log)
                    (log_extend queries_log
                       (issued (traced_block python_lib_path calls None))))).
  { destruct (captured_suffix queries_log
                (issued (traced_block python_lib_path calls None))) as [j ->].
    by apply Forall_drop, traced_block_printable. }
  unfold QueryCount._assert_num_queries.
  change (raises (traced_block python_lib_path calls None)) with (@None exn).
  cbv iota. cbn [fst]. unfold QueryCount.compare_counts.
  destruct (negb _); [|done]. destruct (verbose >? 0); [|done].
  match goal with
  | |- context [queries_text _ _ _ _ _ ?m] =>
      destruct (queries_text_inr str_int rstrip sub_literals verbose _ m Hp) as [t ->]
  end.
  done.
Qed.

(** X3. Statements already in the log when the block is entered do not
    count: the result is the same on any two logs that have room for
    the statements of the block. *)
Theorem assert_num_queries_ignores_earlier_log
    verbose expected_counts block (log1 log2 : list Query) :
  (length log1 + length (issued block) <= queries_limit)%nat →
  (length log2 + length (issued block) <= queries_limit)%nat →
  (_assert_num_queries verbose expected_counts block log1).1
  = (_assert_num_queries verbose expected_counts block log2).1.
Proof.
  intros H1 H2. unfold QueryCount._assert_num_queries.
  destruct (raises block); [done|]. by rewrite !captured_issued.
Qed.

Lemma count_loop_ignored captured (d : dict) :
  fold_left count_step
    (filter (fun q => is_ignored (query_type q) = false) captured) d
  = fold_left count_step captured d.
Proof.
  revert d. induction captured as [|q captured IH]; intros d; [done|].
  rewrite filter_cons. simpl fold_left.
  destruct (decide (is_ignored (query_type q) = false)) as [Hq|Hq].
  - simpl. by rewrite IH.
  - rewrite IH. f_equal. unfold count_step.
    by destruct (is_ignored (query_type q)).
Qed.

(** X4. Savepoint, release, set and show statements make no difference:
    the counts, and so the pass, are those of the other statements
    alone. *)
Theorem ignored_statements_make_no_difference
    verbose expected_counts (captured : list Query) :
  let counted := filter (fun q => is_ignored (query_type q) = false) captured in
  count_queries counted = count_queries captured
  ∧ (compare_counts verbose expected_counts counted = Passed
     ↔ compare_counts verbose expected_counts captured = Passed).
Proof.
  intros counted.
  assert (H : count_queries counted = count_queries captured)
    by apply count_loop_ignored.
  split; [done|]. by rewrite !compare_counts_Passed, H.
Qed.

Lemma histogram_Permutation (qs qs' : list Query) t :
  qs ≡ₚ qs' → histogram qs t = histogram qs' t.
Proof.
  intros Hp. unfold histogram, occurrences. by rewrite Hp.
Qed.

(** X5. The order of the statements of a block does not change whether
    the assertion passes. *)
Theorem pass_independent_of_order
    verbose (expected_counts : dict) (captured captured' : list Query) :
  NoDup (keys expected_counts) →
  captured ≡ₚ captured' →
  compare_counts verbose expected_counts captured = Passed
  ↔ compare_counts verbose expected_counts captured' = Passed.
Proof.
  intros Hnd Hp. rewrite !compare_counts_Passed.
  rewrite !dict_eqb_lookup by (done || apply count_queries_NoDup).
  split; intros H t; specialize (H t);
    rewrite count_queries_histogram in *;
    [by rewrite <- (histogram_Permutation _ _ t Hp)
    | by rewrite (histogram_Permutation _ _ t Hp)].
Qed.

Lemma histogram_positive captured t n :
  histogram captured t = Some n → 0 < n ∧ is_ignored t = false.
Proof.
  unfold histogram. destruct (is_ignored t); [done|].
  destruct (occurrences t captured); [done|]. intros [= <-]. split; [lia|done].
Qed.

(** X6. An expected mapping that gives a type a count of zero or less,
    or that names savepoint, release, set or show, never passes,
    whatever the block does. *)
Theorem impossible_expectation_fails
    verbose (expected_counts : dict) captured t n :
  dict_get t expected_counts = Some n →
  n <= 0 ∨ is_ignored t = true →
  compare_counts verbose expected_counts captured ≠ Passed.
Proof.
  intros Ht Hbad Hpass. apply compare_counts_Passed in Hpass.
  unfold dict_eqb in Hpass. apply andb_true_iff in Hpass as [_ Hall].
  rewrite forallb_forall in Hall.
  apply dict_get_Some_elem, list_elem_of_In in Ht.
  specialize (Hall _ Ht). simpl in Hall.
  rewrite count_queries_histogram in Hall.
  destruct (histogram captured t) as [m|] eqn:Hh; [|done].
  apply Z.eqb_eq in Hall. subst m.
  apply histogram_positive in Hh as [Hpos Hign].
  destruct Hbad as [Hn|Hi]; [lia | congruence].
Qed.

End Assertion.

Lemma split_space_head_app (s rest : string) :
  all_chars_not_space s = true →
  split_space_head (s ++ String " " rest) = s.
Proof.
  induction s as [|c s IH]; intros Hs; [reflexivity|].
  simpl in Hs. apply andb_true_iff in Hs as [Hc Hs].
  change (String c s ++ String " " rest) with (String c (s ++ String " " rest)).
  simpl. apply negb_true_iff in Hc. rewrite Hc. f_equal. auto.
Qed.

Lemma split_space_head_whole (s : string) :
  all_chars_not_space s = true → split_space_head s = s.
Proof.
  induction s as [|c s IH]; intros Hs; [reflexivity|].
  simpl in Hs. apply andb_true_iff in Hs as [Hc Hs].
  simpl. apply negb_true_iff in Hc. rewrite Hc. f_equal. auto.
Qed.

Lemma lower_lower (s : string) : lower (lower s) = lower s.
Proof.
  induction s as [|c s IH]; [reflexivity|]. simpl. f_equal; [|done].
  unfold lower_char.
  destruct ((65 <=? nat_of_ascii c)%nat && (nat_of_ascii c <=? 90)%nat) eqn:Hc.
  - apply andb_true_iff in Hc as [H1 H2].
    apply Nat.leb_le in H1. apply Nat.leb_le in H2.
    rewrite nat_ascii_embedding by lia.
    replace ((nat_of_ascii c + 32 <=? 90)%nat) with false; [by rewrite andb_false_r|].
    symmetry. apply Nat.leb_gt. lia.
  - by rewrite Hc.
Qed.

(** X7. The type of a statement is the text before its first space,
    lower-cased, whatever follows the space; statements that differ
    only in the case of that text, or after it, have one type. *)
Theorem query_type_first_word (word rest : string) (q q' : Query) :
  all_chars_not_space word = true →
  sql q = word ++ String " " rest →
  sql q' = lower word →
  query_type q = lower word ∧ query_type q' = query_type q.
Proof.
  intros Hw Hq Hq'. unfold query_type. rewrite Hq, Hq'.
  rewrite split_space_head_app by done. split; [done|].
  rewrite split_space_head_whole; [apply lower_lower|].
  clear -Hw. induction word as [|c w IH]; [done|].
  simpl in *. apply andb_true_iff in Hw as [Hc Hw].
  rewrite IH by done. rewrite andb_true_r.
  unfold lower_char.
  destruct ((65 <=? nat_of_ascii c)%nat && (nat_of_ascii c <=? 90)%nat) eqn:Hu;
    [|done].
  apply andb_true_iff in Hu as [H1 H2].
  apply Nat.leb_le in H1. apply Nat.leb_le in H2.
  apply negb_true_iff, Ascii.eqb_neq. intros He.
  apply (f_equal nat_of_ascii) in He.
  rewrite nat_ascii_embedding in He by lia.
  change (nat_of_ascii " "%char) with 32%nat in He. lia.
Qed.

Example get_userland_stack_frame_example :
  lineno <$> get_userland_stack_frame "/usr/lib/python3" example_stack = Some 145.
Proof. reflexivity. Qed.

Lemma traced_block_message_does_not_raise_witness :
  ¬ ∃ e, (_assert_num_queries example_repr_dict example_str_int id id 1 [("select", 5)]
            (traced_block "/usr/lib/python3" [(example_stack, "SELECT 1")] None) []).1
         = Raised e.
Proof.
  intros [e He]. revert He.
  apply (traced_block_message_does_not_raise "/usr/lib/python3"
           example_repr_dict example_str_int id id).
  lia.
Defined.

Lemma assert_num_queries_ignores_earlier_log_witness :
  let block := {| issued := [plain "SELECT 1"]; raises := None |} in
  (_assert_num_queries example_repr_dict example_str_int id id 0 [("select", 1)]
     block []).1
  = (_assert_num_queries example_repr_dict example_str_int id id 0 [("select", 1)]
       block [plain "UPDATE t SET a = 1"; plain "DELETE FROM t"]).1.
Proof.
  apply (assert_num_queries_ignores_earlier_log example_repr_dict example_str_int
           id id).
  - apply Nat.leb_le. vm_compute. reflexivity.
  - apply Nat.leb_le. vm_compute. reflexivity.
Defined.

(** On a full log the statement of the block pushes the oldest entry
    out, the slice from the old length is empty, and the statement is
    not counted. *)
Example full_log_loses_statements :
  let block := {| issued := [plain "SELECT 1"]; raises := None |} in
  let full := repeat (plain "UPDATE t SET a = 1") queries_limit in
  (_assert_num_queries example_repr_dict example_str_int id id 0 [("select", 1)]
     block []).1 = Passed
  ∧ (_assert_num_queries example_repr_dict example_str_int id id 0 []
       block full).1 = Passed.
Proof. vm_compute. done. Qed.

Lemma pass_independent_of_order_witness :
  compare_counts example_repr_dict example_str_int id id 0
    [("select", 1); ("update", 1)] [plain "SELECT 1"; plain "UPDATE t SET a = 1"]
  = Passed
  ↔ compare_counts example_repr_dict example_str_int id id 0
      [("select", 1); ("update", 1)] [plain "UPDATE t SET a = 1"; plain "SELECT 1"]
    = Passed.
Proof.
  apply (pass_independent_of_order example_repr_dict example_str_int id id).
  - apply (bool_decide_unpack _). vm_compute. exact I.
  - apply Permutation_swap.
Defined.

Lemma impossible_expectation_fails_witness :
  compare_counts example_repr_dict example_str_int id id 0
    [("select", 0)] [plain "UPDATE t SET a = 1"] ≠ Passed.
Proof.
  apply (impossible_expectation_fails example_repr_dict example_str_int id id
           0 [("select", 0)] [plain "UPDATE t SET a = 1"] "select" 0).
  - reflexivity.
  - left. lia.
Defined.

Lemma query_type_first_word_witness :
  query_type (plain "SELECT 1") = lower "SELECT"
  ∧ query_type (plain "select") = query_type (plain "SELECT 1").
Proof.
  apply (query_type_first_word "SELECT" "1" (plain "SELECT 1") (plain "select"));
    reflexivity.
Defined.

End QueryCountMore.

(** ** More on the session-aware test client *)

Module UserClientMore.
Import Py UserClient.

Section Request.

Variable User : Type.
Variable Args : Type.
Variable Response : Type.
Variable session_key : string.
Variable new_session : Client -> string.
Variable login : User -> string -> string.
Variable cookie_data : list (string * string).
Variable handler : Args -> Client -> exn + (Response * list (string * Morsel)).

Abbreviation force_login := (force_login User session_key new_session login cookie_data).
Abbreviation super_request := (super_request Args Response handler).
Abbreviation request :=
  (request User Args Response session_key new_session login cookie_data handler).

Lemma setitem_str_bound key v c : is_Some (cookies (setitem_str key v c) !! key).
Proof.
  unfold setitem_str. destruct (cookies c !! key) eqn:Hk; simpl.
  - by rewrite Hk.
  - rewrite lookup_insert_eq. eauto.
Qed.

Lemma force_login_bound u c : is_Some (cookies (force_login u c) !! session_key).
Proof.
  unfold UserClient.force_login.
  destruct (session session_key new_session c) as [k c1].
  pose proof (setitem_str_bound session_key (login u k) c1) as [r Hr].
  rewrite Hr. simpl. rewrite Hr. eauto.
Qed.

Lemma update_bound response_cookies c key :
  is_Some (cookies c !! key) →
  is_Some (cookies (update response_cookies c) !! key).
Proof.
  revert c. induction response_cookies as [|[k m] rest IH]; intros c Hc; [done|].
  simpl. apply IH. simpl. destruct (decide (k = key)) as [->|Hne].
  - rewrite lookup_insert_eq. eauto.
  - by rewrite lookup_insert_ne.
Qed.

Lemma super_request_bound args c key :
  is_Some (cookies c !! key) →
  is_Some (cookies (super_request args c).2 !! key).
Proof.
  intros Hc. unfold UserClient.super_request.
  destruct (handler args c) as [e|[response response_cookies]]; simpl; [done|].
  by apply update_bound.
Qed.

(** X9. The [finally] clause never replaces the outcome of the request:
    the caller gets the response, or the exception, that the request
    made on the logged-in client gives. In particular the [pop] of the
    session cookie finds its key. *)
Theorem request_outcome_is_that_of_the_request u args c :
  (request (Some u) args c).1 = (super_request args (force_login u c)).1.
Proof.
  unfold UserClient.request.
  pose proof (super_request_bound args (force_login u c) session_key
                (force_login_bound u c)) as [r Hr].
  destruct (super_request args (force_login u c)) as [result c2]. simpl in *.
  destruct (cookies c !! session_key); [done|].
  unfold pop. by rewrite Hr.
Qed.


End Request.

Lemma request_no_previous_session_witness :
  cookies
    (request string unit unit "sessionid" (fun _ => "anonymous") example_login
       [("path", "/")] example_raising_handler (Some "bob") tt fresh_client).2
    !! "sessionid" = None.
Proof.
  apply (UserClientProps.request_no_previous_session string unit unit "sessionid").
  reflexivity.
Defined.


End UserClientMore.

(** ** More on the canned response *)

Module HttpMockMore.
Import Py HttpMock.

Lemma evenly_cut_not_nil k c rest : (0 < k)%nat → evenly_cut k (c :: rest) → c ≠ [].
Proof.
  intros Hk H Hc. subst c. simpl in H. destruct rest; simpl in H; lia.
Qed.

Lemma read_positive n (file : list Byte.byte) :
  0 < n <= ssize_t_max →
  read (Some n) file = inr (take (Z.to_nat n) file, drop (Z.to_nat n) file).
Proof.
  intros Hn. unfold read, ssize_t_min, ssize_t_max in *.
  destruct (Z.ltb_spec n (- 2 ^ 63)); [lia|].
  destruct (Z.ltb_spec (2 ^ 63 - 1) n); [lia|]. simpl.
  by destruct (Z.ltb_spec n 0); [lia|].
Qed.

(** X11. With a positive [chunk_size] that [BytesIO.read] accepts, the
    loop of [iter_content] ends without an exception and yields the
    content in order, cut into chunks of exactly [chunk_size] bytes,
    but for the last, which has what is left. *)
Theorem iter_content_positive_chunk_size fuel n (file : list Byte.byte) :
  0 < n <= ssize_t_max →
  (length file < fuel)%nat →
  ∃ chunks, iter_content_loop fuel (Some n) file = Some (chunks, None)
            ∧ concat chunks = file
            ∧ evenly_cut (Z.to_nat n) chunks.
Proof.
  intros Hn. revert file.
  induction fuel as [|fuel IH]; intros file Hlen; [lia|].
  cbn [iter_content_loop]. rewrite read_positive by done.
  assert (Hk : (0 < Z.to_nat n)%nat) by lia.
  destruct file as [|b file].
  { exists []. rewrite take_nil. by repeat split. }
  destruct (take (Z.to_nat n) (b :: file)) as [|b' chunk] eqn:Htake.
  { destruct (Z.to_nat n); [lia | done]. }
  destruct (IH (drop (Z.to_nat n) (b :: file))) as (chunks & -> & Hc & Hcut).
  { rewrite length_drop. simpl in *. lia. }
  exists ((b' :: chunk) :: chunks). split; [done|]. split.
  - change (((b' :: chunk) ++ concat chunks)%list = b :: file).
    rewrite Hc, <- Htake. apply take_drop.
  - assert (Hl : length (b' :: chunk) = (Z.to_nat n `min` length (b :: file))%nat)
      by (rewrite <- Htake; apply length_take).
    destruct chunks as [|c rest]; [simpl in *; lia|].
    change (length (b' :: chunk) = Z.to_nat n ∧ evenly_cut (Z.to_nat n) (c :: rest)).
    split; [|done].
    pose proof (evenly_cut_not_nil _ _ _ Hk Hcut) as Hne.
    assert (Hd : (0 < length (drop (Z.to_nat n) (b :: file)))%nat).
    { rewrite <- Hc. simpl. rewrite length_app. destruct c; [done | simpl; lia]. }
    rewrite length_drop in Hd. lia.
Qed.

(** X12. With [chunk_size] [None], or negative and not below the range
    of [Py_ssize_t], the whole content comes as one chunk, and an empty
    content gives no chunk; a [chunk_size] of zero gives no chunk,
    whatever the content; a [chunk_size] outside that range ends the
    iteration in [OverflowError] before any chunk. *)
Theorem iter_content_other_chunk_sizes fuel chunk_size (file : list Byte.byte) :
  (1 < fuel)%nat →
  (chunk_size = None ∨ (∃ n, chunk_size = Some n ∧ ssize_t_min <= n < 0) →
     iter_content_loop fuel chunk_size file
     = Some (match file with [] => [] | _ :: _ => [file] end, None))
  ∧ (chunk_size = Some 0 → iter_content_loop fuel chunk_size file = Some ([], None))
  ∧ (∀ n, chunk_size = Some n → n < ssize_t_min ∨ ssize_t_max < n →
       iter_content_loop fuel chunk_size file = Some ([], Some (Exn "OverflowError"))).
Proof.
  intros Hf. destruct fuel as [|[|fuel]]; try lia. split; [|split].
  - intros Hs.
    assert (Hread : ∀ l, read chunk_size l = inr (l, [])).
    { intros l. destruct Hs as [->|(n & -> & Hn)]; [done|].
      unfold read, ssize_t_min, ssize_t_max in *.
      destruct (Z.ltb_spec n (- 2 ^ 63)); [lia|].
      destruct (Z.ltb_spec (2 ^ 63 - 1) n); [lia|]. simpl.
      by destruct (Z.ltb_spec n 0); [|lia]. }
    cbn [iter_content_loop]. rewrite !Hread. by destruct file.
  - intros ->. reflexivity.
  - intros n -> Hn. cbn [iter_content_loop].
    unfold read, ssize_t_min, ssize_t_max in *.
    destruct (Z.ltb_spec n (- 2 ^ 63)); [done|].
    destruct (Z.ltb_spec (2 ^ 63 - 1) n); [done|]. lia.
Qed.

Lemma iter_content_positive_chunk_size_witness :
  ∃ chunks, iter_content_loop 10 (Some 4) some_file = Some (chunks, None)
            ∧ concat chunks = some_file
            ∧ evenly_cut (Z.to_nat 4) chunks.
Proof.
  apply (iter_content_positive_chunk_size 10 4 some_file).
  - vm_compute. split; [reflexivity | discriminate].
  - vm_compute. lia.
Defined.

Lemma iter_content_other_chunk_sizes_witness :
  iter_content_loop 2 (Some (-1)) some_file = Some ([some_file], None)
  ∧ iter_content_loop 2 (Some 0) some_file = Some ([], None)
  ∧ iter_content_loop 2 (Some (2 ^ 63)) some_file
    = Some ([], Some (Exn "OverflowError")).
Proof.
  split; [|split].
  - apply (proj1 (iter_content_other_chunk_sizes 2 (Some (-1)) some_file
                    ltac:(lia))).
    right. exists (-1). split; [reflexivity|].
    vm_compute. split; [discriminate | reflexivity].
  - apply (proj1 (proj2 (iter_content_other_chunk_sizes 2 (Some 0) some_file
                           ltac:(lia)))).
    reflexivity.
  - apply (proj2 (proj2 (iter_content_other_chunk_sizes 2 (Some (2 ^ 63)) some_file
                           ltac:(lia))) (2 ^ 63)).
    + reflexivity.
    + right. vm_compute. reflexivity.
Defined.

End HttpMockMore.

(** ** More on the views *)

Module ViewsMore.
Import Py Views Factories.

Section Handlers.

Variable success_url : string.
Variable login_url : string.
Variable reset_form_errors : QueryDict -> list string.
Variable signup_form_errors : QueryDict -> list User -> list string.
Variable user_form_errors : QueryDict -> User -> list User -> list string.
Variable generate_key : nat -> string.

Abbreviation sign_up := (sign_up signup_form_errors generate_key).
Abbreviation reset_password := (reset_password success_url reset_form_errors).
Abbreviation reset_token := (reset_token generate_key).
Abbreviation account := (account login_url user_form_errors).

(** X13. When two rows have the submitted address, a POST to password
    reset ends in [MultipleObjectsReturned], which the view does not
    catch: there is no response, and nothing is sent or changed. *)
Theorem reset_password_duplicate_address request w a :
  method request = POST →
  QueryDict_get "email" (POST_of request) = Some a →
  (2 <= length (filter (fun u => email u = a) (users w)))%nat →
  reset_password request w = (inl (Exn "MultipleObjectsReturned"), w).
Proof.
  intros Hm Ha Hlen. unfold Views.reset_password. rewrite Hm, Ha.
  unfold objects_get.
  destruct (filter _ (users w)) as [|x [|y l]]; simpl in Hlen; try lia. done.
Qed.

(** X14. Token reset changes nothing unless the request is a POST of an
    authenticated user: no token is replaced for an anonymous request
    or for another method. *)
Theorem reset_token_changes_nothing_otherwise request w :
  request_user request w = None ∨ method request ≠ POST →
  (reset_token request w).2 = w.
Proof.
  intros H. unfold Views.reset_token, api_view.
  destruct (request_user request w) as [u|]; [|done].
  destruct H as [H|H]; [done|].
  rewrite bool_decide_false by (rewrite list_elem_of_singleton; done).
  by case_bool_decide.
Qed.

Lemma POST_or_None_other request :
  method request ≠ POST → POST_or_None request = None.
Proof.
  intros H. unfold POST_or_None, POST_of. by destruct (method request).
Qed.

(** X15. A request to sign-up or to account edit with a method other
    than POST changes nothing, and the page shows the form unbound: no
    submitted data is read, and no errors are shown. *)
Theorem other_methods_show_unbound_form request w :
  method request ≠ POST →
  sign_up request w
  = (render "registration/sign_up.html"
       (Some {| data := None; instance := None; errors := [] |}), w)
  ∧ (∀ u, request_user request w = Some u →
       account request w
       = (render "account.html"
            (Some {| data := None; instance := Some u; errors := [] |}), w)).
Proof.
  intros Hm. pose proof (POST_or_None_other request Hm) as Hd. split.
  - unfold Views.sign_up, SignupForm. rewrite Hd. simpl.
    by destruct (method request).
  - intros u Hu. unfold Views.account, login_required, account_body, UserForm.
    rewrite Hu, Hd. simpl. by destruct (method request).
Qed.

End Handlers.

Lemma length_append (s t : string) :
  String.length (s ++ t) = (String.length s + String.length t)%nat.
Proof.
  induction s as [|c s IH]; [reflexivity|].
  change (String c s ++ t) with (String c (s ++ t)). simpl. by rewrite IH.
Qed.

Lemma append_inv_tail (a b s : string) : a ++ s = b ++ s → a = b.
Proof.
  revert b. induction a as [|x a IH]; intros [|y b] H.
  - done.
  - apply (f_equal String.length) in H. rewrite !length_append in H.
    simpl in H. lia.
  - apply (f_equal String.length) in H. rewrite !length_append in H.
    simpl in H. lia.
  - change (String x (a ++ s) = String y (b ++ s)) in H.
    injection H as -> H. f_equal. by apply IH.
Qed.

Lemma UserFactory_email_inj n m :
  UserFactory_email n = UserFactory_email m → n = m.
Proof.
  unfold UserFactory_email. intros H.
  apply (inj (String.app "user")) in H.
  apply append_inv_tail in H. by apply (inj pretty) in H.
Qed.

(** X16. The addresses of the factory sequence are different for
    different sequence numbers. *)
Theorem UserFactory_email_distinct n m :
  n ≠ m → UserFactory_email n ≠ UserFactory_email m.
Proof. intros Hne H. by apply Hne, UserFactory_email_inj. Qed.

(** X17. On a table of users built by the factories with different
    sequence numbers, a lookup by address never finds two rows:
    [User.objects.get] gives the user or [DoesNotExist]. *)
Theorem factory_users_have_distinct_addresses (table : list User) (ns : list nat) a :
  NoDup ns →
  Forall2 (fun u n => built_by_factory n u) table ns →
  NoDup (email <$> table)
  ∧ objects_get (Some a) table ≠ MultipleObjectsReturned.
Proof.
  intros Hnd Hall.
  assert (Hd : NoDup (email <$> table)).
  { assert (He : email <$> table = UserFactory_email <$> ns).
    { clear Hnd. induction Hall as [|u n table ns Hu _ IH]; [done|].
      rewrite !fmap_cons. unfold built_by_factory in Hu. by rewrite Hu, IH. }
    rewrite He. apply NoDup_fmap_2; [|done].
    intros n m. apply UserFactory_email_inj. }
  split; [done|].
  pose proof (ViewsProps.distinct_filter a table Hd) as Hlen.
  unfold objects_get.
  destruct (filter _ table) as [|x [|y l]]; try done. simpl in Hlen. lia.
Qed.

Example UserFactory_email_example :
  UserFactory_email 0 = "user0@example.com"
  ∧ UserFactory_email 12 = "user12@example.com".
Proof. vm_compute. done. Qed.

Lemma reset_password_duplicate_address_witness :
  reset_password "/password-reset/done/" example_reset_form_errors
    (post [("email", "user@example.com")] None)
    (example_world [example_user 1 "user@example.com" true true;
                    example_user 2 "user@example.com" true false])
  = (inl (Exn "MultipleObjectsReturned"),
     example_world [example_user 1 "user@example.com" true true;
                    example_user 2 "user@example.com" true false]).
Proof.
  apply (reset_password_duplicate_address "/password-reset/done/"
           example_reset_form_errors _ _ "user@example.com").
  - reflexivity.
  - reflexivity.
  - vm_compute. lia.
Defined.

Lemma reset_token_changes_nothing_otherwise_witness :
  let w := example_world [example_user 1 "user@example.com" true true] in
  (reset_token example_generate_key (post [] None) w).2 = w.
Proof.
  apply (reset_token_changes_nothing_otherwise example_generate_key).
  left. reflexivity.
Defined.

Lemma other_methods_show_unbound_form_witness :
  let w := example_world [example_user 1 "user@example.com" true true] in
  let request := {| method := GET; body := [("email", "x@example.com")];
                    user := Some 1%nat |} in
  (sign_up example_signup_form_errors example_generate_key request w).2 = w
  ∧ (account "/login/" example_user_form_errors request w).2 = w.
Proof.
  intros w request.
  pose proof (other_methods_show_unbound_form "/login/" example_signup_form_errors
                example_user_form_errors example_generate_key request w
                ltac:(discriminate)) as [H1 H2].
  split.
  - by rewrite H1.
  - by rewrite (H2 (example_user 1 "user@example.com" true true) eq_refl).
Defined.

Lemma UserFactory_email_distinct_witness :
  UserFactory_email 1 ≠ UserFactory_email 10.
Proof. apply (UserFactory_email_distinct 1 10). lia. Defined.

Lemma factory_users_have_distinct_addresses_witness :
  let table := [UserFactory 1 0 "Ann" "Lee"; UnconfirmedUserFactory 2 1 "Bo" "Ray";
                DeactivatedUserFactory 3 2 "Cy" "Fox"] in
  NoDup (email <$> table)
  ∧ objects_get (Some (UserFactory_email 1)) table ≠ MultipleObjectsReturned.
Proof.
  apply (factory_users_have_distinct_addresses _ [0; 1; 2]%nat).
  - apply (bool_decide_unpack _). vm_compute. exact I.
  - repeat constructor.
Defined.

End ViewsMore.

(** ** The registration of the factories *)

Module RegisterFactoryProps.
Import Py RegisterFactory.

Example camel_case_name_factories :
  camel_case_name <$> ["UserFactory"; "UnconfirmedUserFactory"; "DeactivatedUserFactory";
                       "AdminUserFactory"; "WebhookSubscriptionFactory"]
  = ["user_factory"; "unconfirmed_user_factory"; "deactivated_user_factory";
     "admin_user_factory"; "webhook_subscription_factory"].
Proof. reflexivity. Qed.

Example camel_case_name_acronym :
  camel_case_name "HTTPResponse2XXFactory" = "http_response2_xx_factory".
Proof. reflexivity. Qed.

Example rsplit_head_examples :
  rsplit_head "_factory" "unconfirmed_user_factory" = "unconfirmed_user"
  ∧ rsplit_head "_factory" "user_factory_factory" = "user_factory"
  ∧ rsplit_head "_factory" "factory_user" = "factory_user".
Proof. by repeat split. Qed.

Lemma is_upper_lower_char c : is_upper (lower_char c) = false.
Proof.
  unfold lower_char, is_upper, in_range.
  destruct ((65 <=? nat_of_ascii c)%nat && (nat_of_ascii c <=? 90)%nat) eqn:Hc; [|done].
  apply andb_true_iff in Hc as [H1 H2].
  apply Nat.leb_le in H1. apply Nat.leb_le in H2.
  rewrite nat_ascii_embedding by lia.
  apply andb_false_iff. right. apply Nat.leb_gt. lia.
Qed.

Lemma lower_char_not_upper c : is_upper c = false → lower_char c = c.
Proof. unfold lower_char, is_upper, in_range. by intros ->. Qed.

Lemma lower_String c s : lower (String c s) = String (lower_char c) (lower s).
Proof. reflexivity. Qed.

Lemma lower_no_upper s : all_chars (fun c => negb (is_upper c)) (lower s) = true.
Proof.
  induction s as [|c s IH]; [done|]. simpl.
  by rewrite is_upper_lower_char, IH.
Qed.

(** X18. A converted class name has no upper-case letter. *)
Theorem camel_case_name_no_upper name :
  all_chars (fun c => negb (is_upper c)) (camel_case_name name) = true.
Proof. apply lower_no_upper. Qed.

Lemma without_underscores_lower_underscore t :
  without_underscores (lower (String "_" t)) = without_underscores (lower t).
Proof. reflexivity. Qed.

Lemma without_underscores_lower_String c t t' :
  without_underscores (lower t) = without_underscores (lower t') →
  without_underscores (lower (String c t)) = without_underscores (lower (String c t')).
Proof.
  intros H. rewrite !lower_String. simpl. rewrite H. done.
Qed.

Lemma without_underscores_sub prev s :
  without_underscores (lower (sub prev s)) = without_underscores (lower s).
Proof.
  revert prev. induction s as [|c s IH]; intros prev; [done|].
  simpl sub. destruct (matches prev c _).
  - rewrite without_underscores_lower_underscore.
    apply without_underscores_lower_String, IH.
  - apply without_underscores_lower_String, IH.
Qed.


Lemma sub_no_upper prev s :
  all_chars (fun c => negb (is_upper c)) s = true → sub prev s = s.
Proof.
  revert prev. induction s as [|c s IH]; intros prev Hs; [done|].
  simpl in Hs. apply andb_true_iff in Hs as [Hc Hs].
  apply negb_true_iff in Hc. simpl. unfold matches. rewrite Hc. simpl.
  by rewrite IH.
Qed.

Lemma lower_no_upper_id s :
  all_chars (fun c => negb (is_upper c)) s = true → lower s = s.
Proof.
  induction s as [|c s IH]; intros Hs; [done|].
  simpl in Hs. apply andb_true_iff in Hs as [Hc Hs].
  apply negb_true_iff in Hc. simpl. by rewrite lower_char_not_upper, IH.
Qed.


Lemma prefix_length sep s :
  String.prefix sep s = true → (String.length sep <= String.length s)%nat.
Proof.
  revert s. induction sep as [|x sep IH]; intros s H; simpl; [lia|].
  destruct s as [|y s]; [done|]. simpl in H.
  destruct (ascii_dec x y); [|done]. apply IH in H. simpl. lia.
Qed.

Lemma rfind_head_length sep s h :
  rfind_head sep s = Some h →
  (String.length h + String.length sep <= String.length s)%nat.
Proof.
  revert h. induction s as [|c s IH]; intros h; cbn [rfind_head]; [done|].
  destruct (rfind_head sep s) as [h'|].
  - intros [= <-]. specialize (IH h' eq_refl). simpl. lia.
  - destruct (String.prefix sep (String c s)) eqn:Hp; [|done].
    intros [= <-]. apply prefix_length in Hp. simpl String.length in *. lia.
Qed.

(** X21. After [register_factory] the instance fixture of the class is
    bound to the converted name cut before its last [_factory]. The
    factory fixture is bound to the converted name when that name
    contains [_factory]; when it does not, the two names are one and
    the instance fixture has taken the place of the factory fixture.
    No other name is touched. *)
Theorem register_factory_bindings cls (globals : gmap string fixture) :
  let name := camel_case_name cls in
  let globals' := register_factory cls globals in
  globals' !! rsplit_head "_factory" name = Some (instance_fixture cls)
  ∧ globals' !! name
    = Some (if occurs "_factory" name then factory_fixture cls
            else instance_fixture cls)
  ∧ (∀ other, other ≠ name → other ≠ rsplit_head "_factory" name →
              globals' !! other = globals !! other).
Proof.
  intros name globals'. subst globals'. unfold register_factory. fold name.
  split; [apply lookup_insert_eq|]. split.
  - unfold occurs, rsplit_head.
    destruct (rfind_head "_factory" name) as [h|] eqn:Hh; simpl.
    + apply rfind_head_length in Hh.
      rewrite lookup_insert_ne; [apply lookup_insert_eq|].
      intros ->. simpl in Hh. lia.
    + apply lookup_insert_eq.
  - intros other H1 H2. by rewrite !lookup_insert_ne.
Qed.


(** A class whose name has no [Factory] in it gets one fixture, not
    two. *)
Example register_factory_without_suffix :
  register_factory "Job" ∅ = {[ "job" := instance_fixture "Job" ]}.
Proof.
  apply map_eq. intros k. unfold register_factory.
  change (camel_case_name "Job") with "job".
  change (rsplit_head "_factory" "job") with "job".
  by rewrite insert_insert_eq.
Qed.

End RegisterFactoryProps.

(** ** fabfile.py *)

Module FabfileProps.
Import Py Fabfile.

Lemma setup_django_after {A} (func : Process → A * Process) st :
  plain_task func →
  _django_setup (setup_django func st).2 = true
  ∧ django_setup_calls (setup_django func st).2
    = (django_setup_calls st + (if _django_setup st then 0 else 1))%nat.
Proof.
  intros Hf. unfold setup_django.
  destruct (_django_setup st) eqn:Hs; simpl.
  - destruct (Hf st) as [H1 H2]. rewrite H1, H2. split; [done | lia].
  - match goal with |- context [func ?s] => destruct (Hf s) as [H1 H2] end.
    rewrite H1, H2. simpl. split; [done | lia].
Qed.

Lemma run_tasks_cons {A} (task : Process → A * Process) tasks st :
  run_tasks (task :: tasks) st = run_tasks tasks (task st).2.
Proof. reflexivity. Qed.

Lemma run_tasks_set_up {A} (bodies : list (Process → A * Process)) st :
  Forall plain_task bodies →
  _django_setup st = true →
  _django_setup (run_tasks (setup_django <$> bodies) st) = true
  ∧ django_setup_calls (run_tasks (setup_django <$> bodies) st)
    = django_setup_calls st.
Proof.
  intros Hb. revert st. induction Hb as [|func bodies Hf _ IH]; intros st Hs; [done|].
  rewrite fmap_cons, run_tasks_cons.
  destruct (setup_django_after func st Hf) as [H1 H2].
  destruct (IH _ H1) as [H3 H4]. rewrite H3, H4, H2, Hs. split; [done | lia].
Qed.

(** X22. However many tasks under [setup_django] run in a process that
    starts with the flag unset, [django.setup()] runs exactly once,
    before the first of them; the tasks are ones that leave the flag
    alone and do not call [django.setup()] themselves. *)
Theorem setup_django_runs_setup_once {A}
    (body : Process → A * Process) (bodies : list (Process → A * Process)) st :
  Forall plain_task (body :: bodies) →
  _django_setup st = false →
  let st' := run_tasks (setup_django <$> body :: bodies) st in
  _django_setup st' = true
  ∧ django_setup_calls st' = S (django_setup_calls st)
  ∧ django_setup_calls (setup_django body st).2 = S (django_setup_calls st).
Proof.
  intros Hall Hs st'. subst st'. apply Forall_cons in Hall as [Hf Hb].
  rewrite fmap_cons, run_tasks_cons.
  destruct (setup_django_after body st Hf) as [H1 H2]. rewrite Hs in H2.
  destruct (run_tasks_set_up bodies _ Hb H1) as [H3 H4].
  rewrite H3, H4, H2. repeat split; lia.
Qed.

Example run_django_examples :
  run_django None ∅ = "python manage.py runserver 127.0.0.1:8000"
  ∧ run_django None {[ "DOCKERIZED" := "0" ]}
    = "python manage.py runserver 0.0.0.0:8000"
  ∧ run_django None {[ "DOCKERIZED" := EmptyString ]}
    = "python manage.py runserver 127.0.0.1:8000"
  ∧ run_django (Some "8001") {[ "DOCKERIZED" := "True" ]}
    = "python manage.py runserver 8001".
Proof. vm_compute. done. Qed.

Lemma setup_django_runs_setup_once_witness :
  let task (st : Process) := (tt, st) in
  let st := {| _django_setup := false; sys_path := ["/app"]; django_setup_calls := 0 |} in
  let st' := run_tasks (setup_django <$> [task; task; task]) st in
  _django_setup st' = true
  ∧ django_setup_calls st' = 1%nat
  ∧ django_setup_calls (setup_django task st).2 = 1%nat.
Proof.
  intros task st.
  apply (setup_django_runs_setup_once task [task; task] st).
  - repeat constructor.
  - reflexivity.
Defined.

End FabfileProps.
